(** * flexget.utils.database: column synonyms, the pickle sanitizer and the
      hybrid comparators, embedded from [src/flexget/utils/database.py].

    The module is Python 2 code.  Python values are modelled by tagged
    inductive types, raised exceptions by the [Raise] constructor of [res],
    and [setattr]/[getattr] on a mapped row by insertion into and total
    lookup in a finite map from attribute names to column values. *)

From Stdlib Require Import ZArith Lia Bool Ascii String List.
From Stdlib Require Import SpecFloat.
From stdpp Require Import base option list strings gmap fin_maps.

Open Scope Z_scope.
Open Scope string_scope.
Open Scope list_scope.

(** ** Exceptions and results *)

Inductive exn : Type :=
| TypeError
| ValueError
| AttributeError.

Definition exn_eqb (a b : exn) : bool :=
  match a, b with
  | TypeError, TypeError => true
  | ValueError, ValueError => true
  | AttributeError, AttributeError => true
  | _, _ => false
  end.

(** The outcome of a Python call: a returned value or a raised exception. *)
Inductive res (A : Type) : Type :=
| Ok (a : A)
| Raise (e : exn).
Arguments Ok {A} a.
Arguments Raise {A} e.

Definition is_ok {A : Type} (r : res A) : bool :=
  match r with Ok _ => true | Raise _ => false end.

Definition res_map {A B : Type} (f : A -> B) (r : res A) : res B :=
  match r with Ok a => Ok (f a) | Raise e => Raise e end.

(** ** Python values seen by the sanitizer *)

(** A naive [datetime.datetime]. *)
Record datetime : Type := mkdatetime {
  year : Z; month : Z; day : Z;
  hour : Z; minute : Z; second : Z; microsecond : Z
}.

(** The six entries of [supported_types], in the order of the source list. *)
Inductive builtin : Type :=
| Tstr | Tunicode | Tint | Tfloat | Tbool | Tdatetime.

Definition builtin_eqb (a b : builtin) : bool :=
  match a, b with
  | Tstr, Tstr | Tunicode, Tunicode | Tint, Tint
  | Tfloat, Tfloat | Tbool, Tbool | Tdatetime, Tdatetime => true
  | _, _ => false
  end.

(** Whether the object's type is the builtin type itself or a user class
    deriving from it. *)
Inductive pyclass : Type :=
| Exact
| Subclass (cls : string).

(** The payload of an instance of one of the supported types. *)
Inductive prim : Type :=
| PStr (s : string)
| PUnicode (codepoints : list N)
| PInt (n : Z)
| PFloat (f : spec_float)
| PBool (b : bool)
| PDatetime (d : datetime).

(** Python objects.  [VObject cls id] is an instance of a class that derives
    from none of the supported types and is no dict, list, tuple or set
    (for example [object()], a [long], a [frozenset] or an instance of an
    application class); [id] is its identity.  Dictionaries are association
    lists in iteration order, sets are element lists in iteration order. *)
#[warnings="-register-all"]
Inductive value : Type :=
| VNone
| VPrim (c : pyclass) (p : prim)
| VDict (c : pyclass) (items : list (value * value))
| VList (c : pyclass) (elts : list value)
| VTuple (c : pyclass) (elts : list value)
| VSet (c : pyclass) (elts : list value)
| VObject (cls : string) (id : N).

Definition prim_type (p : prim) : builtin :=
  match p with
  | PStr _ => Tstr
  | PUnicode _ => Tunicode
  | PInt _ => Tint
  | PFloat _ => Tfloat
  | PBool _ => Tbool
  | PDatetime _ => Tdatetime
  end.

(** [issubclass(t, s)] on the supported types: each is its own subclass and
    [bool] derives from [int]. *)
Definition issubclass (t s : builtin) : bool :=
  builtin_eqb t s ||
  match t, s with Tbool, Tint => true | _, _ => false end.

(** [isinstance(item, s_type)] for [s_type] in [supported_types]. *)
Definition isinstance (item : value) (s : builtin) : bool :=
  match item with
  | VPrim _ p => issubclass (prim_type p) s
  | _ => false
  end.

Definition isinstance_dict (item : value) : bool :=
  match item with VDict _ _ => true | _ => false end.

(** [isinstance(item, (list, tuple, set))]. *)
Definition isinstance_sequence (item : value) : bool :=
  match item with
  | VList _ _ | VTuple _ _ | VSet _ _ => true
  | _ => false
  end.

(** ** Structural equality of values, used for dict keys and set elements

    Python finds a dict key or a set element by identity, hash and [==].
    The model compares values structurally.  Keys that Python tells apart
    are structurally different, so on a dict, whose keys Python tells
    apart, an assignment to a key of the dict being copied never overwrites
    an entry in either reading; the one exception are two different float
    objects that are both not-a-number, which Python keeps apart and the
    structural comparison takes for one. *)

Definition pyclass_eqb (a b : pyclass) : bool :=
  match a, b with
  | Exact, Exact => true
  | Subclass x, Subclass y => String.eqb x y
  | _, _ => false
  end.

Definition float_eqb (a b : spec_float) : bool :=
  match a, b with
  | S754_zero s, S754_zero s' => Bool.eqb s s'
  | S754_infinity s, S754_infinity s' => Bool.eqb s s'
  | S754_nan, S754_nan => true
  | S754_finite s m e, S754_finite s' m' e' =>
      Bool.eqb s s' && Pos.eqb m m' && Z.eqb e e'
  | _, _ => false
  end.

Definition datetime_eqb (a b : datetime) : bool :=
  Z.eqb (year a) (year b) && Z.eqb (month a) (month b) &&
  Z.eqb (day a) (day b) && Z.eqb (hour a) (hour b) &&
  Z.eqb (minute a) (minute b) && Z.eqb (second a) (second b) &&
  Z.eqb (microsecond a) (microsecond b).

Section ListEqb.
Context {A : Type} (eqbA : A -> A -> bool).

Fixpoint list_eqb (l l' : list A) : bool :=
  match l, l' with
  | [], [] => true
  | x :: r, y :: r' => eqbA x y && list_eqb r r'
  | _, _ => false
  end.
End ListEqb.

Definition prim_eqb (a b : prim) : bool :=
  match a, b with
  | PStr s, PStr t => String.eqb s t
  | PUnicode s, PUnicode t => list_eqb N.eqb s t
  | PInt n, PInt m => Z.eqb n m
  | PFloat f, PFloat g => float_eqb f g
  | PBool x, PBool y => Bool.eqb x y
  | PDatetime d, PDatetime e => datetime_eqb d e
  | _, _ => false
  end.

Fixpoint value_eqb (a b : value) {struct a} : bool :=
  match a, b with
  | VNone, VNone => true
  | VPrim c p, VPrim c' p' => pyclass_eqb c c' && prim_eqb p p'
  | VDict c items, VDict c' items' =>
      pyclass_eqb c c' &&
      (fix go (l l' : list (value * value)) {struct l} : bool :=
         match l, l' with
         | [], [] => true
         | (k, v) :: r, (k', v') :: r' =>
             value_eqb k k' && value_eqb v v' && go r r'
         | _, _ => false
         end) items items'
  | VList c l, VList c' l' => pyclass_eqb c c' && list_eqb value_eqb l l'
  | VTuple c l, VTuple c' l' => pyclass_eqb c c' && list_eqb value_eqb l l'
  | VSet c l, VSet c' l' => pyclass_eqb c c' && list_eqb value_eqb l l'
  | VObject cls i, VObject cls' i' => String.eqb cls cls' && N.eqb i i'
  | _, _ => false
  end.

(** ** Dict and set construction *)

(** [result[key] = v] on an association list: an existing binding of [key]
    is overwritten in place, a new key is added at the end. *)
Fixpoint dict_setitem (result : list (value * value)) (key v : value)
  : list (value * value) :=
  match result with
  | [] => [(key, v)]
  | (k, w) :: rest =>
      if value_eqb k key then (k, v) :: rest
      else (k, w) :: dict_setitem rest key v
  end.

Fixpoint dict_getitem (d : list (value * value)) (key : value) : option value :=
  match d with
  | [] => None
  | (k, w) :: rest => if value_eqb k key then Some w else dict_getitem rest key
  end.

(** [s.add(x)]. *)
Definition set_add (s : list value) (x : value) : list value :=
  if existsb (value_eqb x) s then s else s ++ [x].

(** [set(result)]. *)
Definition set_of_list (result : list value) : list value :=
  fold_left set_add result [].

(** ** [safe_pickle_synonym]: the sanitizer [only_builtins] *)

Module SafePickle.

Definition supported_types : list builtin :=
  [Tstr; Tunicode; Tint; Tfloat; Tbool; Tdatetime].

(** [type(item) in supported_types]: the type is one of the six builtin
    types itself, not a class deriving from one. *)
Definition type_in_supported (item : value) : bool :=
  match item with
  | VPrim Exact p => existsb (builtin_eqb (prim_type p)) supported_types
  | _ => false
  end.

(** [s_type(item)] for an [item] with [isinstance(item, s_type)]: the call
    of the builtin type on an instance of a class deriving from it.  The
    five value types copy the payload into an exact instance ([int] of a
    boolean payload gives 0 or 1).  [datetime(item)] is a constructor call
    with a single argument that is no integer, where year, month and day
    are required: it raises [TypeError]. *)
Definition construct (s : builtin) (p : prim) : res prim :=
  match s, p with
  | Tstr, PStr x => Ok (PStr x)
  | Tunicode, PUnicode x => Ok (PUnicode x)
  | Tint, PInt n => Ok (PInt n)
  | Tint, PBool b => Ok (PInt (Z.b2z b))
  | Tfloat, PFloat f => Ok (PFloat f)
  | Tbool, PBool b => Ok (PBool b)
  | Tdatetime, PDatetime _ => Raise TypeError
  | _, _ => Raise TypeError
  end.

(** The loop [for s_type in supported_types: if isinstance(item, s_type):
    return s_type(item)]; [None] when the loop ends without returning. *)
Fixpoint coerce_loop (types : list builtin) (item : value) : option (res value) :=
  match types with
  | [] => None
  | s_type :: rest =>
      if isinstance item s_type then
        match item with
        | VPrim _ p => Some (res_map (VPrim Exact) (construct s_type p))
        | _ => Some (Raise TypeError)
        end
      else coerce_loop rest item
  end.

Section Loops.
Variable recurse : value -> res value.

(** The dict branch: [for key, value in item.iteritems()] with a
    [try: result[key] = only_builtins(value) except TypeError: continue]
    body, started from [result = {}]. *)
Fixpoint dict_loop (items result : list (value * value))
  : res (list (value * value)) :=
  match items with
  | [] => Ok result
  | (key, v) :: rest =>
      match recurse v with
      | Ok r => dict_loop rest (dict_setitem result key r)
      | Raise e =>
          if exn_eqb e TypeError then dict_loop rest result else Raise e
      end
  end.

(** The list, tuple and set branch: [for value in item] with a
    [try: result.append(only_builtins(value)) except ValueError: continue]
    body, started from [result = []]. *)
Fixpoint seq_loop (elts result : list value) : res (list value) :=
  match elts with
  | [] => Ok result
  | v :: rest =>
      match recurse v with
      | Ok r => seq_loop rest (result ++ [r])
      | Raise e =>
          if exn_eqb e ValueError then seq_loop rest result else Raise e
      end
  end.
End Loops.

(** [only_builtins(item)]: the [if]/[elif] chain on the type of [item], and
    the final [raise TypeError] that is reached when the loop over
    [supported_types] returns nothing. *)
Fixpoint only_builtins (item : value) : res value :=
  if type_in_supported item then Ok item
  else
    match item with
    | VDict _ items =>
        res_map (VDict Exact) (dict_loop only_builtins items [])
    | VList _ elts =>
        res_map (VList Exact) (seq_loop only_builtins elts [])
    | VTuple _ elts =>
        res_map (VTuple Exact) (seq_loop only_builtins elts [])
    | VSet _ elts =>
        res_map (fun result => VSet Exact (set_of_list result))
                (seq_loop only_builtins elts [])
    | _ =>
        match coerce_loop supported_types item with
        | Some r => r
        | None => Raise TypeError
        end
    end.

(** The mapped row: attribute names to stored values; an attribute that was
    never assigned reads as [None]. *)
#[export] Instance value_inhabited : Inhabited value := populate VNone.

Section Synonym.
Variable name : string.

Definition getter (self : gmap string value) : value := self !!! name.

(** [setattr(self, name, only_builtins(entry))]: the outcome of the call and
    the row after it. *)
Definition setter (self : gmap string value) (entry : value)
  : res unit * gmap string value :=
  match only_builtins entry with
  | Ok v => (Ok tt, <[name := v]> self)
  | Raise e => (Raise e, self)
  end.
End Synonym.

End SafePickle.

(** ** The value kinds a pickled blob may hold *)

(** A key that is text: an exact [str] or [unicode]. *)
Definition is_text (k : value) : bool :=
  match k with
  | VPrim Exact (PStr _) | VPrim Exact (PUnicode _) => true
  | _ => false
  end.

(** The closed set of kinds in the words of the specification: text,
    integer, floating-point, boolean, timestamp, ordered sequence, set, or a
    mapping whose keys are text; every node an instance of the builtin type
    itself. *)
Fixpoint sanitized (v : value) : bool :=
  match v with
  | VPrim Exact _ => true
  | VDict Exact items =>
      forallb (fun kv => match kv with (k, w) => is_text k && sanitized w end)
              items
  | VList Exact l | VTuple Exact l | VSet Exact l => forallb sanitized l
  | _ => false
  end.

(** The same closed set of kinds, with nothing asked of mapping keys. *)
Fixpoint builtin_tree (v : value) : bool :=
  match v with
  | VPrim Exact _ => true
  | VDict Exact items =>
      forallb (fun kv => match kv with (_, w) => builtin_tree w end) items
  | VList Exact l | VTuple Exact l | VSet Exact l => forallb builtin_tree l
  | _ => false
  end.

(** Every mapping of the tree, at any depth below values, has text keys. *)
Fixpoint text_keys (v : value) : bool :=
  match v with
  | VDict _ items =>
      forallb (fun kv => match kv with (k, w) => is_text k && text_keys w end)
              items
  | VList _ l | VTuple _ l | VSet _ l => forallb text_keys l
  | _ => true
  end.

(** What the dict branch keeps of one entry: the key with the sanitized
    value, or nothing when the value cannot be sanitized. *)
Definition surviving_entry (kv : value * value) : option (value * value) :=
  match SafePickle.only_builtins (snd kv) with
  | Ok r => Some (fst kv, r)
  | Raise _ => None
  end.

(** ** Python text operations used by the synonyms *)

Module PyStr.

(** [c in chars]. *)
Fixpoint has_char (c : ascii) (chars : string) : bool :=
  match chars with
  | EmptyString => false
  | String x rest => Ascii.eqb x c || has_char c rest
  end.

(** [s.lstrip(chars)]: drop the leading characters that occur in [chars]. *)
Fixpoint lstrip (chars s : string) : string :=
  match s with
  | EmptyString => EmptyString
  | String c rest => if has_char c chars then lstrip chars rest else s
  end.

(** [s.rstrip(chars)]: drop the trailing characters that occur in [chars]. *)
Fixpoint rstrip (chars s : string) : string :=
  match s with
  | EmptyString => EmptyString
  | String c rest =>
      match rstrip chars rest with
      | EmptyString => if has_char c chars then EmptyString else String c EmptyString
      | kept => String c kept
      end
  end.

(** [s.strip(chars)]. *)
Definition strip (chars s : string) : string := rstrip chars (lstrip chars s).

(** [s.split(sep)] for a separator of one character: the pieces between
    the occurrences of [sep]; the empty text splits into one empty piece. *)
Fixpoint split (sep : ascii) (s : string) : list string :=
  match s with
  | EmptyString => [EmptyString]
  | String c rest =>
      if Ascii.eqb c sep then EmptyString :: split sep rest
      else
        match split sep rest with
        | piece :: pieces => String c piece :: pieces
        | [] => [String c EmptyString]
        end
  end.

(** [sep.join(items)]. *)
Fixpoint join (sep : string) (items : list string) : string :=
  match items with
  | [] => EmptyString
  | [x] => x
  | x :: rest => x +:+ sep +:+ join sep rest
  end.

(** [s.count(c)] for one character [c]. *)
Fixpoint count_char (c : ascii) (s : string) : nat :=
  match s with
  | EmptyString => O
  | String x rest => (if Ascii.eqb x c then 1 else 0) + count_char c rest
  end.

(** The truth value of a text: every text but the empty one is true. *)
Definition nonempty (s : string) : bool :=
  match s with EmptyString => false | String _ _ => true end.

(** [c.lower()] and [s.lower()] on byte strings ([str]): the letters A to Z
    go to a to z, every other byte stays.  On a [unicode] text, [lower]
    also maps the capital letters outside ASCII; on texts of ASCII
    characters the two types lower, and compare, alike. *)
Definition is_upper (c : ascii) : bool :=
  ((65 <=? Z.of_N (N_of_ascii c)) && (Z.of_N (N_of_ascii c) <=? 90))%Z.

Definition lower_char (c : ascii) : ascii :=
  if is_upper c then ascii_of_N (N_of_ascii c + 32) else c.

Fixpoint lower (s : string) : string :=
  match s with
  | EmptyString => EmptyString
  | String c rest => String (lower_char c) (lower rest)
  end.

(** Every character of the text is an ASCII character. *)
Fixpoint is_ascii (s : string) : bool :=
  match s with
  | EmptyString => true
  | String c rest => (N_of_ascii c <? 128)%N && is_ascii rest
  end.


End PyStr.

(** ** [pipe_list_synonym] *)

Module PipeList.
Import PyStr.

(** What the setter is given: one text, or a sequence of texts. *)
Inductive arg : Type :=
| Text (s : string)
| Items (l : list string).

Section Synonym.
Variable name : string.

(** The column holds a text or [None]; [if attr:] is false for [None] and
    for the empty text, and the function then ends without [return]. *)
Definition getter (self : gmap string (option string)) : option (list string) :=
  match self !!! name with
  | Some attr =>
      if nonempty attr then Some (split "|" (strip "|" attr)) else None
  | None => None
  end.

Definition setter (self : gmap string (option string)) (value : arg)
  : gmap string (option string) :=
  match value with
  | Text s => <[name := Some s]> self
  | Items l => <[name := Some (join "|" l)]> self
  end.
End Synonym.

(** A result that is null or an empty sequence. *)
Definition empty_equivalent (r : option (list string)) : bool :=
  match r with
  | None | Some [] => true
  | Some (_ :: _) => false
  end.

End PipeList.

(** ** [text_date_synonym] *)

Module TextDate.
Import PyStr.

(** *** [datetime.strptime(value, '%Y-%m-%d')]

    The library compiles the format into a regular expression with one
    named group per directive,
    [(?P<Y>\d\d\d\d)-(?P<m>1[0-2]|0[1-9]|[1-9])-(?P<d>3[0-1]|[1-2]\d|0[1-9]|[1-9]| [1-9])],
    matches it at the start of the text, raises [ValueError] when it does
    not match or when text remains after the match, converts the groups
    with [int] and builds the date, which raises [ValueError] when the
    numbers name no day of the calendar. *)

Inductive regex : Type :=
| Lit (c : ascii)
| Range (lo hi : ascii)
| Seq (r1 r2 : regex)
| Alt (r1 r2 : regex).

Definition in_range (lo hi c : ascii) : bool :=
  (N_of_ascii lo <=? N_of_ascii c)%N && (N_of_ascii c <=? N_of_ascii hi)%N.

(** The matches of [r] at the start of [s], as pairs of the matched text
    and the text after it, in the order a backtracking matcher tries
    them: the alternatives from left to right. *)
Fixpoint rmatch (r : regex) (s : string) : list (string * string) :=
  match r with
  | Lit c =>
      match s with
      | String x rest => if Ascii.eqb x c then [(String x "", rest)] else []
      | EmptyString => []
      end
  | Range lo hi =>
      match s with
      | String x rest => if in_range lo hi x then [(String x "", rest)] else []
      | EmptyString => []
      end
  | Seq r1 r2 =>
      p1 ← rmatch r1 s;
      p2 ← rmatch r2 (snd p1);
      [(fst p1 +:+ fst p2, snd p2)]
  | Alt r1 r2 => rmatch r1 s ++ rmatch r2 s
  end.

Definition digit : regex := Range "0" "9".

(** [\d\d\d\d] *)
Definition re_Y : regex := Seq digit (Seq digit (Seq digit digit)).

(** [1[0-2]|0[1-9]|[1-9]] *)
Definition re_m : regex :=
  Alt (Seq (Lit "1") (Range "0" "2"))
      (Alt (Seq (Lit "0") (Range "1" "9")) (Range "1" "9")).

(** [3[0-1]|[1-2]\d|0[1-9]|[1-9]| [1-9]] *)
Definition re_d : regex :=
  Alt (Seq (Lit "3") (Range "0" "1"))
      (Alt (Seq (Range "1" "2") digit)
           (Alt (Seq (Lit "0") (Range "1" "9"))
                (Alt (Range "1" "9") (Seq (Lit " ") (Range "1" "9"))))).

(** The first match of the whole expression: the texts of the groups
    [Y], [m] and [d], and what is left of the input. *)
Definition format_match (data_string : string)
  : option (string * string * string * string) :=
  head (gY ← rmatch re_Y data_string;
        dash1 ← rmatch (Lit "-") (snd gY);
        gm ← rmatch re_m (snd dash1);
        dash2 ← rmatch (Lit "-") (snd gm);
        gd ← rmatch re_d (snd dash2);
        [(fst gY, fst gm, fst gd, snd gd)]).

Definition is_digit (c : ascii) : bool := in_range "0" "9" c.

Definition digit_value (c : ascii) : Z := Z.of_N (N_of_ascii c) - 48.

Fixpoint digits_value (acc : Z) (s : string) : option Z :=
  match s with
  | EmptyString => Some acc
  | String c rest =>
      if is_digit c then digits_value (10 * acc + digit_value c) rest else None
  end.

(** Space, tab, line feed, vertical tab, form feed and carriage return. *)
Definition whitespace : string :=
  String " " (String (ascii_of_N 9) (String (ascii_of_N 10)
    (String (ascii_of_N 11) (String (ascii_of_N 12)
      (String (ascii_of_N 13) ""))))).

(** [int(text)] on an unsigned decimal numeral, which may have white space
    around it; any other text raises [ValueError]. *)
Definition int_of_text (text : string) : res Z :=
  match strip whitespace text with
  | EmptyString => Raise ValueError
  | numeral =>
      match digits_value 0 numeral with
      | Some n => Ok n
      | None => Raise ValueError
      end
  end.

Definition is_leap (y : Z) : bool :=
  (y mod 4 =? 0)%Z && (negb (y mod 100 =? 0)%Z || (y mod 400 =? 0)%Z).

Definition days_in_month (y m : Z) : Z :=
  if (m =? 2)%Z then (if is_leap y then 29 else 28)
  else if (m =? 4)%Z || (m =? 6)%Z || (m =? 9)%Z || (m =? 11)%Z then 30
  else 31.

(** The range checks of the date constructor. *)
Definition date_in_range (y m d : Z) : bool :=
  ((1 <=? y) && (y <=? 9999) && (1 <=? m) && (m <=? 12) &&
   (1 <=? d) && (d <=? days_in_month y m))%Z.

Definition strptime_Y_m_d (data_string : string) : res datetime :=
  match format_match data_string with
  | None => Raise ValueError
  | Some (gY, gm, gd, rest) =>
      if nonempty rest then Raise ValueError
      else
        match int_of_text gY, int_of_text gm, int_of_text gd with
        | Ok y, Ok m, Ok d =>
            if date_in_range y m d then Ok (mkdatetime y m d 0 0 0 0)
            else Raise ValueError
        | _, _, _ => Raise ValueError
        end
  end.

(** *** The synonym *)

(** What the setter is given: a text, or any other value, which for this
    column is a [datetime] or [None]. *)
Inductive arg : Type :=
| Text (s : string)
| Stamp (v : option datetime).

Section Synonym.
Variable name : string.

Definition getter (self : gmap string (option datetime)) : option datetime :=
  self !!! name.

(** The outcome of the call and the row after it. *)
Definition setter (self : gmap string (option datetime)) (value : arg)
  : res unit * gmap string (option datetime) :=
  match value with
  | Text s =>
      match strptime_Y_m_d s with
      | Ok d => (Ok tt, <[name := Some d]> self)
      | Raise e => (Raise e, self)
      end
  | Stamp v => (Ok tt, <[name := v]> self)
  end.
End Synonym.

(** *** The shapes of a date text *)

Definition all_ascii : list ascii := List.map ascii_of_nat (seq 0 256).

(** The finite set of texts a regular expression matches. *)
Fixpoint texts (r : regex) : list string :=
  match r with
  | Lit c => [String c ""]
  | Range lo hi =>
      List.map (fun c => String c "") (List.filter (in_range lo hi) all_ascii)
  | Seq r1 r2 => t1 ← texts r1; t2 ← texts r2; [t1 +:+ t2]
  | Alt r1 r2 => texts r1 ++ texts r2
  end.

Fixpoint all_digits (s : string) : bool :=
  match s with
  | EmptyString => true
  | String c rest => is_digit c && all_digits rest
  end.

(** [YYYY-MM-DD] read to the letter: four digits, two digits and two
    digits, joined by ["-"]. *)
Definition is_YYYY_MM_DD (s : string) : bool :=
  match split "-" s with
  | [y; m; d] =>
      all_digits y && (String.length y =? 4)%nat &&
      all_digits m && (String.length m =? 2)%nat &&
      all_digits d && (String.length d =? 2)%nat
  | _ => false
  end.

(** A day part: one or two digits, or a space and a digit. *)
Definition is_day_part (d : string) : bool :=
  match d with
  | String a EmptyString => is_digit a
  | String a (String b EmptyString) =>
      (is_digit a || Ascii.eqb a " ") && is_digit b
  | _ => false
  end.

(** Four digits, one or two digits, and a day part, joined by ["-"]. *)
Definition is_Y_m_d (s : string) : bool :=
  match split "-" s with
  | [y; m; d] =>
      all_digits y && (String.length y =? 4)%nat &&
      all_digits m && ((String.length m =? 1)%nat || (String.length m =? 2)%nat) &&
      is_day_part d
  | _ => false
  end.

End TextDate.

(** ** Comparison operators handed to [operate] *)

(** The functions of Python's [operator] module that a comparison passes to
    [Comparator.operate]. *)
Inductive operator : Type :=
| op_eq | op_ne | op_lt | op_le | op_gt | op_ge.

(** [op(a, b)] on two texts. *)
Definition apply_text (op : operator) (a b : string) : bool :=
  match op with
  | op_eq => String.eqb a b
  | op_ne => negb (String.eqb a b)
  | op_lt => String.ltb a b
  | op_le => String.leb a b
  | op_gt => String.ltb b a
  | op_ge => String.leb b a
  end.

(** [op(a, b)] on two integers. *)
Definition apply_int (op : operator) (a b : Z) : bool :=
  match op with
  | op_eq => (a =? b)%Z
  | op_ne => negb (a =? b)%Z
  | op_lt => (a <? b)%Z
  | op_le => (a <=? b)%Z
  | op_gt => (a >? b)%Z
  | op_ge => (a >=? b)%Z
  end.

(** ** [CaseInsensitiveWord] *)

Module CaseInsensitive.
Import PyStr.

(** A store-side expression: a column, or [func.lower] of an expression. *)
Inductive sqlexpr : Type :=
| Column (column : string)
| FuncLower (e : sqlexpr).

(** The attribute [word]: a lowered text, or a deferred expression. *)
Inductive word_value : Type :=
| WText (s : string)
| WExpr (e : sqlexpr).

Record CaseInsensitiveWord : Type := mkWord { word : word_value }.

(** What the constructor and [operate] are given: a text, a wrapper, or
    anything else, which is taken for a store-side expression. *)
Inductive operand : Type :=
| OText (s : string)
| OWord (w : CaseInsensitiveWord)
| OExpr (e : sqlexpr).

(** [CaseInsensitiveWord.__init__]. *)
Definition init (w : operand) : CaseInsensitiveWord :=
  match w with
  | OText s => mkWord (WText (lower s))
  | OWord w' => mkWord (word w')
  | OExpr e => mkWord (WExpr (FuncLower e))
  end.

(** The result of [op(self.word, other.word)]: a boolean when both sides
    are texts, a predicate for the store as soon as one side is an
    expression. *)
Inductive outcome : Type :=
| Bool (b : bool)
| Predicate (op : operator) (lhs rhs : word_value).

(** The operator with its operands exchanged: what Python calls on the
    right operand when the left one does not know how to compare. *)
Definition reflect (op : operator) : operator :=
  match op with
  | op_eq => op_eq
  | op_ne => op_ne
  | op_lt => op_gt
  | op_le => op_ge
  | op_gt => op_lt
  | op_ge => op_le
  end.

(** [op(a, b)]: two texts are compared at once.  An expression on the left
    builds the predicate [a op b].  A text on the left of an expression
    cannot compare itself with it, so the expression answers with the
    reflected operator and the predicate is [b (reflect op) a]. *)
Definition apply_op (op : operator) (a b : word_value) : outcome :=
  match a, b with
  | WText x, WText y => Bool (apply_text op x y)
  | WText x, WExpr e => Predicate (reflect op) (WExpr e) (WText x)
  | WExpr e, _ => Predicate op (WExpr e) b
  end.

Definition operate (self : CaseInsensitiveWord) (op : operator) (other : operand)
  : outcome :=
  let other' :=
    match other with
    | OWord w => w
    | _ => init other
    end in
  apply_op op (word self) (word other').

(** Two characters that are equal or the upper and lower case of one
    letter. *)
Definition same_letter (c d : ascii) : bool :=
  Ascii.eqb c d
  || (is_upper c && (N_of_ascii d =? N_of_ascii c + 32)%N)
  || (is_upper d && (N_of_ascii c =? N_of_ascii d + 32)%N).

(** Two texts that differ at most in the case of their letters. *)
Fixpoint same_up_to_case (a b : string) : bool :=
  match a, b with
  | EmptyString, EmptyString => true
  | String c a', String d b' => same_letter c d && same_up_to_case a' b'
  | _, _ => false
  end.

End CaseInsensitive.

(** ** [QualityComparator] *)

Module QualityCmp.

(** A quality of [flexget.utils.qualities]: its name and its rank. *)
Record quality : Type := mkQuality { name : string; value : Z }.

(** What [operate] is given: an object with an attribute [value], here a
    quality; a text; or anything else. *)
Inductive operand : Type :=
| OQuality (q : quality)
| OText (s : string)
| OOther.

(** The expression [case(value=column, whens=whens, else_=else_)]. *)
Inductive sqlexpr : Type :=
| Case (column : string) (whens : gmap string Z) (else_ : Z).

(** [op(expression, value)]: a comparison for the store to evaluate. *)
Inductive predicate : Type :=
| Compare (op : operator) (lhs : sqlexpr) (rhs : Z).

(** [dict(pairs)]: a later pair overwrites an earlier one with its key. *)
Definition dict_of_pairs (pairs : list (string * Z)) : gmap string Z :=
  fold_left (fun d p => <[fst p := snd p]> d) pairs ∅.

Section Registry.
(** Modelled from the spec: the quality registry of [flexget.utils.qualities],
    which is not among the sources; section 6 gives it as a lookup from a
    name to a quality or not-found and as the set of all qualities, and
    section 8 writes it as a finite map from names to ranks. *)
Variable registry : gmap string Z.

(** Modelled from the spec: [qualities.get(name, False)], with [None] for
    the default [False] of a name that is not registered. *)
Definition qualities_get (n : string) : option quality :=
  mkQuality n <$> registry !! n.

(** Modelled from the spec: [qualities.all()]. *)
Definition qualities_all : list quality :=
  (fun p => mkQuality (fst p) (snd p)) <$> map_to_list registry.

(** [QualityComparator.operate], for a comparator over [column]. *)
Definition operate (column : string) (op : operator) (other : operand)
  : res predicate :=
  let resolved :=
    match other with
    | OQuality q => Ok (value q)
    | OText s =>
        match qualities_get s with
        | Some qual => Ok (value qual)
        | None => Raise ValueError
        end
    | OOther => Raise TypeError
    end in
  match resolved with
  | Ok v =>
      let whens :=
        dict_of_pairs ((fun q => (name q, value q)) <$> qualities_all) in
      Ok (Compare op (Case column whens 0) v)
  | Raise e => Raise e
  end.
End Registry.

(** The store's reading of the expressions, on a row whose column holds
    [stored]: a [CASE] takes the branch of the stored text and the default
    when there is none. *)
Definition eval_case (stored : string) (e : sqlexpr) : Z :=
  match e with
  | Case _ whens else_ => default else_ (whens !! stored)
  end.

Definition eval_predicate (stored : string) (p : predicate) : bool :=
  match p with
  | Compare op lhs rhs => apply_int op (eval_case stored lhs) rhs
  end.

End QualityCmp.

(** ** Values in normal form *)

(** No two elements of the list are equal. *)
Fixpoint distinct (l : list value) : bool :=
  match l with
  | [] => true
  | x :: rest => negb (existsb (value_eqb x) rest) && distinct rest
  end.

(** An exact instance of a supported type, or an exact dict, list, tuple or
    set whose values or elements are in normal form, a dict with pairwise
    different keys, a set with pairwise different elements. *)
Fixpoint normal (v : value) : bool :=
  match v with
  | VPrim Exact _ => true
  | VDict Exact items =>
      distinct (List.map fst items) &&
      forallb (fun kv => match kv with (_, w) => normal w end) items
  | VList Exact l | VTuple Exact l => forallb normal l
  | VSet Exact l => distinct l && forallb normal l
  | _ => false
  end.

(** ** Dates written with leading zeros *)

Module DateText.

(** The character of a decimal digit. *)
Definition digit_char (n : Z) : ascii := ascii_of_N (Z.to_N (48 + n)).

(** ['%02d' % n] for [n] from 0 to 99. *)
Definition pad2 (n : Z) : string :=
  String (digit_char (n / 10)) (String (digit_char (n mod 10)) "").

(** ['%04d' % n] for [n] from 0 to 9999. *)
Definition pad4 (n : Z) : string :=
  String (digit_char (n / 1000))
    (String (digit_char (n / 100 mod 10))
       (String (digit_char (n / 10 mod 10))
          (String (digit_char (n mod 10)) ""))).

(** ['%04d-%02d-%02d' % (y, m, d)]. *)
Definition iso_text (y m d : Z) : string :=
  pad4 y +:+ "-" +:+ pad2 m +:+ "-" +:+ pad2 d.

(** The integers from 0 up to, not including, [n]. *)
Definition below (n : Z) : list Z := List.map Z.of_nat (seq 0 (Z.to_nat n)).

End DateText.

(** ** [year_property] *)

Module YearProperty.

(** The expression [extract(field, column)]. *)
Inductive sqlexpr : Type :=
| Extract (field : string) (column : string).

Section Property.
Variable date_attr : string.

(** [date and date.year]: [None] is false and is returned as it is; a
    [datetime] is true, so its year is returned. *)
Definition getter (self : gmap string (option datetime)) : option Z :=
  match self !!! date_attr with
  | None => None
  | Some date => Some (year date)
  end.

Definition expr : sqlexpr := Extract "year" date_attr.
End Property.

End YearProperty.

(** ** [quality_property] *)

Module QualityProperty.
Import QualityCmp.

(** What the setter is given: a text, or a quality. *)
Inductive arg : Type :=
| AText (s : string)
| AQuality (q : quality).

Section Property.
(** Modelled from the spec: the quality registry, as for the comparator. *)
Variable registry : gmap string Z.

(** Modelled from the spec: what [qualities.get], called without a default,
    gives for a name that is not registered and for [None]; neither is in
    the sources, so both are left open. *)
Variable get_unknown : string -> res (option quality).
Variable get_none : res (option quality).

Variable text_attr : string.

(** [qualities.get(getattr(self, text_attr))]. *)
Definition getter (self : gmap string (option string)) : res (option quality) :=
  match self !!! text_attr with
  | Some n =>
      match qualities_get registry n with
      | Some q => Ok (Some q)
      | None => get_unknown n
      end
  | None => get_none
  end.

Definition setter (self : gmap string (option string)) (value : arg)
  : gmap string (option string) :=
  match value with
  | AText s => <[text_attr := Some s]> self
  | AQuality q => <[text_attr := Some (name q)]> self
  end.

(** [QualityComparator(getattr(self, text_attr))], read on the class: the
    comparator over the column, applied to an operator and an operand. *)
Definition comparator (op : operator) (other : operand) : res predicate :=
  operate registry text_attr op other.
End Property.

End QualityProperty.

(** ** [with_session] *)

Module WithSession.

(** A session object: which one it is, and the two options it was made
    with. *)
Record session : Type := mkSession {
  session_id : nat; autoflush : bool; expire_on_commit : bool
}.

(** The value of a keyword argument: a session, [None], or any other
    object with its truth value. *)
Inductive kwarg : Type :=
| KSession (s : session)
| KNone
| KOther (truth : bool).

(** What is done to sessions, in order; [Did] stands for what the
    decorated function does. *)
Inductive event : Type :=
| Created (s : session)
| Committed (s : session)
| Closed (s : session)
| Did (what : string).

(** The truth value of [kwargs.get('session')]: a missing key reads as
    [None], which is false; a session object is true. *)
Definition truth (v : option kwarg) : bool :=
  match v with
  | Some (KSession _) => true
  | Some (KOther b) => b
  | Some KNone | None => false
  end.

Section Decorator.
Context {Args A : Type}.

(** The decorated function: its outcome and what it did, given the
    positional and the keyword arguments. *)
Variable func : Args -> gmap string kwarg -> res A * list event.

(** Which session [Session(autoflush=True, expire_on_commit=False)]
    makes. *)
Variable fresh : nat.

(** Whether [commit()] on the session returns or raises, after what has
    happened so far. *)
Variable commit : session -> list event -> res unit.

Definition new_session : session := mkSession fresh true false.

(** [wrapper], called with the positional and the keyword arguments: the
    outcome and the events, in order.  The
    [finally] clause closes the session on every way out of the [try]. *)
Definition wrapper (args : Args) (kwargs : gmap string kwarg)
  : res A * list event :=
  if negb (truth (kwargs !! "session")) then
    let kwargs' := <["session" := KSession new_session]> kwargs in
    match func args kwargs' with
    | (Ok result, did) =>
        match commit new_session (Created new_session :: did) with
        | Ok _ =>
            (Ok result,
             Created new_session :: did
               ++ [Committed new_session; Closed new_session])
        | Raise e =>
            (Raise e, Created new_session :: did ++ [Closed new_session])
        end
    | (Raise e, did) =>
        (Raise e, Created new_session :: did ++ [Closed new_session])
    end
  else func args kwargs.
End Decorator.

End WithSession.

(** * Properties *)

(** ** Induction over values, through the nested lists *)

Section ValueInduction.
Variable P : value -> Prop.
Hypothesis HNone : P VNone.
Hypothesis HPrim : forall c p, P (VPrim c p).
Hypothesis HDict : forall c items,
  Forall (fun kv => P (fst kv) /\ P (snd kv)) items -> P (VDict c items).
Hypothesis HList : forall c l, Forall P l -> P (VList c l).
Hypothesis HTuple : forall c l, Forall P l -> P (VTuple c l).
Hypothesis HSet : forall c l, Forall P l -> P (VSet c l).
Hypothesis HObject : forall cls i, P (VObject cls i).

Fixpoint value_nested_ind (v : value) : P v :=
  let all :=
    fix all (l : list value) : Forall P l :=
      match l with
      | [] => @List.Forall_nil _ P
      | x :: r => @List.Forall_cons _ P x r (value_nested_ind x) (all r)
      end in
  match v with
  | VNone => HNone
  | VPrim c p => HPrim c p
  | VDict c items =>
      HDict c items
        ((fix pairs (l : list (value * value))
            : Forall (fun kv => P (fst kv) /\ P (snd kv)) l :=
            match l with
            | [] => @List.Forall_nil _ _
            | (k, w) :: r =>
                @List.Forall_cons _
                  (fun kv => P (fst kv) /\ P (snd kv)) (k, w) r
                  (conj (value_nested_ind k) (value_nested_ind w)) (pairs r)
            end) items)
  | VList c l => HList c l (all l)
  | VTuple c l => HTuple c l (all l)
  | VSet c l => HSet c l (all l)
  | VObject cls i => HObject cls i
  end.
End ValueInduction.

(** ** Equality tests decide equality *)

Lemma exn_eqb_eq (a b : exn) : exn_eqb a b = true <-> a = b.
Proof. destruct a, b; simpl; split; congruence. Qed.

Lemma pyclass_eqb_eq (a b : pyclass) : pyclass_eqb a b = true <-> a = b.
Proof.
  destruct a as [|x], b as [|y]; simpl; try (split; congruence).
  rewrite String.eqb_eq. split; congruence.
Qed.

Lemma float_eqb_eq (a b : spec_float) : float_eqb a b = true <-> a = b.
Proof.
  destruct a, b; simpl; try (split; congruence).
  - rewrite Bool.eqb_true_iff. split; congruence.
  - rewrite Bool.eqb_true_iff. split; congruence.
  - rewrite !andb_true_iff, Bool.eqb_true_iff, Pos.eqb_eq, Z.eqb_eq.
    split; [intros [[-> ->] ->]; reflexivity | intros [= -> -> ->]; auto].
Qed.

Lemma datetime_eqb_eq (a b : datetime) : datetime_eqb a b = true <-> a = b.
Proof.
  destruct a, b; unfold datetime_eqb; simpl.
  rewrite !andb_true_iff, !Z.eqb_eq. split.
  - intros [[[[[[-> ->] ->] ->] ->] ->] ->]. reflexivity.
  - intros [= -> -> -> -> -> -> ->]. repeat split.
Qed.

Lemma list_eqb_eq {A : Type} (f : A -> A -> bool) (l l' : list A) :
  Forall (fun x => forall y, f x y = true <-> x = y) l ->
  list_eqb f l l' = true <-> l = l'.
Proof.
  intros H. revert l'. induction H as [|x r Hx _ IH]; intros [|y r']; simpl;
    try (split; congruence).
  rewrite andb_true_iff, Hx, IH. split; [intros [-> ->]; reflexivity|].
  intros [= -> ->]. auto.
Qed.

Lemma prim_eqb_eq (a b : prim) : prim_eqb a b = true <-> a = b.
Proof.
  destruct a, b; simpl; try (split; congruence).
  - rewrite String.eqb_eq. split; congruence.
  - rewrite list_eqb_eq.
    + split; congruence.
    + apply Forall_forall. intros x _ y. apply N.eqb_eq.
  - rewrite Z.eqb_eq. split; congruence.
  - rewrite float_eqb_eq. split; congruence.
  - rewrite Bool.eqb_true_iff. split; congruence.
  - rewrite datetime_eqb_eq. split; congruence.
Qed.

Lemma value_eqb_eq (a b : value) : value_eqb a b = true <-> a = b.
Proof.
  revert b. induction a as [|c p|c items IH|c l IH|c l IH|c l IH|cls i]
    using value_nested_ind; intros [|c' p'|c' items'|c' l'|c' l'|c' l'|cls' i'];
    simpl; try (split; congruence).
  - rewrite andb_true_iff, pyclass_eqb_eq, prim_eqb_eq.
    split; [intros [-> ->]; reflexivity | intros [= -> ->]; auto].
  - rewrite andb_true_iff, pyclass_eqb_eq.
    assert (Hgo : forall items',
      (fix go (l l' : list (value * value)) {struct l} : bool :=
         match l, l' with
         | [], [] => true
         | (k, v) :: r, (k', v') :: r' =>
             value_eqb k k' && value_eqb v v' && go r r'
         | _, _ => false
         end) items items' = true <-> items = items').
    { clear c c' items'. induction IH as [|[k v] r [Hk Hv] _ IHr];
        intros [|[k' v'] r']; try (split; congruence).
      simpl in Hk, Hv. rewrite !andb_true_iff, Hk, Hv, IHr.
      split; [intros [[-> ->] ->]; reflexivity | intros [= -> -> ->]; auto]. }
    rewrite Hgo. split; [intros [-> ->]; reflexivity | intros [= -> ->]; auto].
  - rewrite andb_true_iff, pyclass_eqb_eq, (list_eqb_eq _ _ _ IH).
    split; [intros [-> ->]; reflexivity | intros [= -> ->]; auto].
  - rewrite andb_true_iff, pyclass_eqb_eq, (list_eqb_eq _ _ _ IH).
    split; [intros [-> ->]; reflexivity | intros [= -> ->]; auto].
  - rewrite andb_true_iff, pyclass_eqb_eq, (list_eqb_eq _ _ _ IH).
    split; [intros [-> ->]; reflexivity | intros [= -> ->]; auto].
  - rewrite andb_true_iff, String.eqb_eq, N.eqb_eq.
    split; [intros [-> ->]; reflexivity | intros [= -> ->]; auto].
Qed.

Lemma value_eqb_refl (a : value) : value_eqb a a = true.
Proof. apply value_eqb_eq. reflexivity. Qed.

Lemma value_eqb_neq (a b : value) : a <> b -> value_eqb a b = false.
Proof.
  intros H. destruct (value_eqb a b) eqn:E; [|reflexivity].
  apply value_eqb_eq in E. contradiction.
Qed.

(** ** The sanitizer [only_builtins] *)

Section SafePickleProps.
Import SafePickle.

(** One unfolding of the recursive definition. *)
Lemma only_builtins_unfold (item : value) :
  only_builtins item =
  if type_in_supported item then Ok item
  else
    match item with
    | VDict _ items =>
        res_map (VDict Exact) (dict_loop only_builtins items [])
    | VList _ elts =>
        res_map (VList Exact) (seq_loop only_builtins elts [])
    | VTuple _ elts =>
        res_map (VTuple Exact) (seq_loop only_builtins elts [])
    | VSet _ elts =>
        res_map (fun result => VSet Exact (set_of_list result))
                (seq_loop only_builtins elts [])
    | _ =>
        match coerce_loop supported_types item with
        | Some r => r
        | None => Raise TypeError
        end
    end.
Proof. destruct item; reflexivity. Qed.

Lemma res_map_ok {A B : Type} (f : A -> B) (r : res A) (b : B) :
  res_map f r = Ok b -> exists a, r = Ok a /\ b = f a.
Proof. destruct r; simpl; intros [= <-]. eauto. Qed.

Lemma res_map_raise {A B : Type} (f : A -> B) (r : res A) (e : exn) :
  res_map f r = Raise e <-> r = Raise e.
Proof. destruct r; simpl; split; congruence. Qed.

Lemma construct_raises (s : builtin) (p : prim) (e : exn) :
  construct s p = Raise e -> e = TypeError.
Proof. destruct s, p; simpl; congruence. Qed.

Lemma coerce_loop_raises (types : list builtin) (item : value) (e : exn) :
  coerce_loop types item = Some (Raise e) -> e = TypeError.
Proof.
  induction types as [|s rest IH]; simpl; [discriminate|].
  destruct (isinstance item s); [|exact IH].
  destruct item; try congruence.
  intros [= H]. apply res_map_raise in H. eauto using construct_raises.
Qed.

(** A loop over elements whose sanitization raises nothing but [TypeError]
    raises nothing but [TypeError]. *)
Lemma seq_loop_raises (f : value -> res value) (elts acc : list value) (e : exn) :
  Forall (fun v => forall e', f v = Raise e' -> e' = TypeError) elts ->
  seq_loop f elts acc = Raise e -> e = TypeError.
Proof.
  intros H. revert acc. induction H as [|v rest Hv _ IH]; intros acc; simpl;
    [discriminate|].
  destruct (f v) as [r|e'] eqn:E; [apply IH|].
  rewrite (Hv e' eq_refl). simpl. congruence.
Qed.

(** The dict loop catches every [TypeError], so it returns. *)
Lemma dict_loop_returns (f : value -> res value) (items acc : list (value * value)) :
  Forall (fun kv => forall e', f (snd kv) = Raise e' -> e' = TypeError) items ->
  exists result, dict_loop f items acc = Ok result.
Proof.
  intros H. revert acc. induction H as [|[k v] rest Hv _ IH]; intros acc; simpl;
    [eauto|].
  destruct (f v) as [r|e'] eqn:E; [apply IH|].
  simpl in Hv. rewrite (Hv e' E). simpl. apply IH.
Qed.

(** [TypeError] is the one exception the sanitizer raises. *)
Lemma only_builtins_raises (item : value) (e : exn) :
  only_builtins item = Raise e -> e = TypeError.
Proof.
  revert e. induction item as [|c p|c items IH|c l IH|c l IH|c l IH|cls i]
    using value_nested_ind; intros e; rewrite only_builtins_unfold;
    destruct (type_in_supported _); try discriminate.
  - simpl. congruence.
  - destruct (coerce_loop _ _) as [r|] eqn:E; [|congruence].
    intros ->. eauto using coerce_loop_raises.
  - rewrite res_map_raise.
    destruct (dict_loop_returns only_builtins items []) as [r Hr].
    + eapply Forall_impl; [exact IH|]. intros kv [_ H]. exact H.
    + rewrite Hr. discriminate.
  - rewrite res_map_raise. apply seq_loop_raises. exact IH.
  - rewrite res_map_raise. apply seq_loop_raises. exact IH.
  - rewrite res_map_raise. apply seq_loop_raises. exact IH.
  - simpl. congruence.
Qed.

Lemma forallb_Forall_true {A : Type} (f : A -> bool) (l : list A) :
  forallb f l = true <-> Forall (fun x => f x = true) l.
Proof.
  induction l as [|x r IH]; simpl.
  - split; auto.
  - rewrite andb_true_iff, IH. split.
    + intros [? ?]. constructor; assumption.
    + intros H. inversion H; subst. auto.
Qed.

(** *** Invariants of the two loops and of the container constructors *)

Lemma dict_setitem_Forall (Q : value * value -> Prop)
    (result : list (value * value)) (key v : value) :
  Q (key, v) -> (forall k w, Q (k, w) -> Q (k, v)) ->
  Forall Q result -> Forall Q (dict_setitem result key v).
Proof.
  intros Hnew Hupd H. induction H as [|[k w] rest Hkw Hrest IH]; simpl.
  - constructor; [assumption | constructor].
  - destruct (value_eqb k key).
    + constructor; [eapply Hupd; eassumption | assumption].
    + constructor; assumption.
Qed.

Lemma dict_loop_Forall (f : value -> res value) (Qk Qv : value -> Prop)
    (items acc result : list (value * value)) :
  Forall (fun kv => Qk (fst kv) /\ forall r, f (snd kv) = Ok r -> Qv r) items ->
  Forall (fun kv => Qk (fst kv) /\ Qv (snd kv)) acc ->
  dict_loop f items acc = Ok result ->
  Forall (fun kv => Qk (fst kv) /\ Qv (snd kv)) result.
Proof.
  intros H. revert acc. induction H as [|[k v] rest [Hk Hv] _ IH];
    intros acc Hacc; simpl.
  - intros [= <-]. exact Hacc.
  - simpl in Hk, Hv. destruct (f v) as [r|e] eqn:E.
    + apply IH. apply dict_setitem_Forall; [| |exact Hacc].
      * simpl. auto.
      * simpl. intros k' w [Hk' _]. auto.
    + destruct (exn_eqb e TypeError); [apply IH; exact Hacc | discriminate].
Qed.

Lemma seq_loop_Forall (f : value -> res value) (Q : value -> Prop)
    (elts acc result : list value) :
  Forall (fun v => forall r, f v = Ok r -> Q r) elts ->
  Forall Q acc ->
  seq_loop f elts acc = Ok result ->
  Forall Q result.
Proof.
  intros H. revert acc. induction H as [|v rest Hv _ IH]; intros acc Hacc; simpl.
  - intros [= <-]. exact Hacc.
  - destruct (f v) as [r|e] eqn:E.
    + apply IH. apply Forall_app. split; [exact Hacc|]. constructor; auto.
    + destruct (exn_eqb e ValueError); [apply IH; exact Hacc | discriminate].
Qed.

Lemma set_of_list_Forall (Q : value -> Prop) (l : list value) :
  Forall Q l -> Forall Q (set_of_list l).
Proof.
  unfold set_of_list. assert (G : forall acc, Forall Q acc -> Forall Q l ->
    Forall Q (fold_left set_add l acc)).
  { induction l as [|x r IH]; intros acc Hacc Hl; simpl; [exact Hacc|].
    inversion Hl; subst. apply IH; [|assumption].
    unfold set_add. destruct (existsb _ _); [exact Hacc|].
    apply Forall_app. split; [exact Hacc|]. constructor; auto. }
  apply G. constructor.
Qed.

Lemma coerce_loop_exact (types : list builtin) (item r : value) :
  coerce_loop types item = Some (Ok r) -> exists p, r = VPrim Exact p.
Proof.
  induction types as [|s rest IH]; simpl; [discriminate|].
  destruct (isinstance item s); [|exact IH].
  destruct item; try discriminate.
  intros [= H]. apply res_map_ok in H. destruct H as (q & _ & ->). eauto.
Qed.

(** Every node of a result, mapping keys apart, is an exact instance of a
    builtin type of the closed set. *)
Lemma only_builtins_builtin_tree (item r : value) :
  only_builtins item = Ok r -> builtin_tree r = true.
Proof.
  revert r. induction item as [|c p|c items IH|c l IH|c l IH|c l IH|cls i]
    using value_nested_ind; intros r; rewrite only_builtins_unfold;
    destruct (type_in_supported _) eqn:T; try (simpl in T; discriminate T).
  - simpl. discriminate.
  - intros [= <-]. destruct c; [reflexivity | discriminate].
  - destruct (coerce_loop _ _) as [r'|] eqn:E; [|discriminate].
    intros ->. apply coerce_loop_exact in E. destruct E as [q ->]. reflexivity.
  - intros H. apply res_map_ok in H. destruct H as (d & Hd & ->). simpl.
    apply forallb_Forall_true.
    eapply (dict_loop_Forall _ (fun _ => True) (fun w => builtin_tree w = true))
      in Hd.
    + eapply Forall_impl; [exact Hd|]. intros [k w] [_ H]. exact H.
    + eapply Forall_impl; [exact IH|]. intros [k w] [_ H]. simpl in *. auto.
    + constructor.
  - intros H. apply res_map_ok in H. destruct H as (d & Hd & ->). simpl.
    apply forallb_Forall_true.
    eapply seq_loop_Forall; [exact IH | constructor | exact Hd].
  - intros H. apply res_map_ok in H. destruct H as (d & Hd & ->). simpl.
    apply forallb_Forall_true.
    eapply seq_loop_Forall; [exact IH | constructor | exact Hd].
  - intros H. apply res_map_ok in H. destruct H as (d & Hd & ->). simpl.
    apply forallb_Forall_true. apply set_of_list_Forall.
    eapply seq_loop_Forall; [exact IH | constructor | exact Hd].
  - simpl. discriminate.
Qed.

(** When every mapping of the input has text keys, so has the result. *)
Lemma only_builtins_sanitized (item r : value) :
  text_keys item = true -> only_builtins item = Ok r -> sanitized r = true.
Proof.
  revert r. induction item as [|c p|c items IH|c l IH|c l IH|c l IH|cls i]
    using value_nested_ind; intros r HK; rewrite only_builtins_unfold;
    destruct (type_in_supported _) eqn:T; try (simpl in T; discriminate T).
  - simpl. discriminate.
  - intros [= <-]. destruct c; [reflexivity | discriminate].
  - destruct (coerce_loop _ _) as [r'|] eqn:E; [|discriminate].
    intros ->. apply coerce_loop_exact in E. destruct E as [q ->]. reflexivity.
  - intros H. apply res_map_ok in H. destruct H as (d & Hd & ->). simpl.
    simpl in HK. apply forallb_Forall_true in HK.
    apply forallb_Forall_true.
    eapply (dict_loop_Forall _ (fun k => is_text k = true)
              (fun w => sanitized w = true)) in Hd.
    + eapply Forall_impl; [exact Hd|]. intros [k w] [H1 H2]. simpl in *.
      rewrite H1, H2. reflexivity.
    + apply Forall_forall. intros [k w] Hin. simpl.
      pose proof (proj1 (Forall_forall _ _) IH _ Hin) as [_ IHw].
      pose proof (proj1 (Forall_forall _ _) HK _ Hin) as Hkw.
      simpl in IHw, Hkw. apply andb_true_iff in Hkw. destruct Hkw.
      split; [assumption|]. intros r'. apply IHw. assumption.
    + constructor.
  - intros H. apply res_map_ok in H. destruct H as (d & Hd & ->). simpl.
    simpl in HK. apply forallb_Forall_true in HK. apply forallb_Forall_true.
    eapply seq_loop_Forall; [|constructor | exact Hd].
    apply Forall_forall. intros v Hin r'.
    apply (proj1 (Forall_forall _ _) IH _ Hin).
    apply (proj1 (Forall_forall _ _) HK _ Hin).
  - intros H. apply res_map_ok in H. destruct H as (d & Hd & ->). simpl.
    simpl in HK. apply forallb_Forall_true in HK. apply forallb_Forall_true.
    eapply seq_loop_Forall; [|constructor | exact Hd].
    apply Forall_forall. intros v Hin r'.
    apply (proj1 (Forall_forall _ _) IH _ Hin).
    apply (proj1 (Forall_forall _ _) HK _ Hin).
  - intros H. apply res_map_ok in H. destruct H as (d & Hd & ->). simpl.
    simpl in HK. apply forallb_Forall_true in HK. apply forallb_Forall_true.
    apply set_of_list_Forall.
    eapply seq_loop_Forall; [|constructor | exact Hd].
    apply Forall_forall. intros v Hin r'.
    apply (proj1 (Forall_forall _ _) IH _ Hin).
    apply (proj1 (Forall_forall _ _) HK _ Hin).
  - simpl. discriminate.
Qed.

(** C1, as stated, fails: the dict branch copies keys without looking at
    them, so a mapping with an integer key is returned with that key, and
    the result is not in the closed set with text keys. *)
Lemma C1_non_text_key_counterexample :
  only_builtins (VDict Exact [(VPrim Exact (PInt 1), VPrim Exact (PStr "a"))])
    = Ok (VDict Exact [(VPrim Exact (PInt 1), VPrim Exact (PStr "a"))]) /\
  sanitized (VDict Exact [(VPrim Exact (PInt 1), VPrim Exact (PStr "a"))])
    = false.
Proof. split; reflexivity. Qed.

(** C1 (amended): for every input on which the sanitizer succeeds, every
    node of the result other than a mapping key is an exact text, integer,
    floating-point, boolean, timestamp, list, tuple, set or dict; and when
    every mapping key of the input is text, the result lies in the closed
    set with text keys. *)
Theorem C1_only_builtins_closed_kinds (item r : value) :
  only_builtins item = Ok r ->
  builtin_tree r = true /\ (text_keys item = true -> sanitized r = true).
Proof.
  intros H. split.
  - eapply only_builtins_builtin_tree; exact H.
  - intros HK. eapply only_builtins_sanitized; eassumption.
Qed.

Lemma C1_only_builtins_closed_kinds_witness :
  let item := VList (Subclass "Entry")
                [VPrim (Subclass "Title") (PStr "x");
                 VDict (Subclass "Entry")
                   [(VPrim Exact (PStr "k"), VPrim Exact (PBool true));
                    (VPrim Exact (PStr "bad"), VObject "Plugin" 7)]] in
  let r := VList Exact
             [VPrim Exact (PStr "x");
              VDict Exact [(VPrim Exact (PStr "k"), VPrim Exact (PBool true))]] in
  only_builtins item = Ok r /\
  builtin_tree r = true /\ (text_keys item = true -> sanitized r = true).
Proof.
  split; [reflexivity|].
  apply (C1_only_builtins_closed_kinds
           (VList (Subclass "Entry")
                [VPrim (Subclass "Title") (PStr "x");
                 VDict (Subclass "Entry")
                   [(VPrim Exact (PStr "k"), VPrim Exact (PBool true));
                    (VPrim Exact (PStr "bad"), VObject "Plugin" 7)]])).
  reflexivity.
Defined.

(** *** Sequences and sets: a failing element is not dropped *)

(** The [except ValueError] clause of the sequence loop never matches the
    [TypeError] the sanitizer raises: the first failing element ends the
    loop with that exception. *)
Lemma seq_loop_propagates (f : value -> res value) (elts acc : list value) :
  (forall v e, f v = Raise e -> e = TypeError) ->
  Exists (fun v => is_ok (f v) = false) elts ->
  seq_loop f elts acc = Raise TypeError.
Proof.
  intros Hf H. revert acc. induction H as [v rest Hv|v rest _ IH]; intros acc;
    simpl.
  - destruct (f v) as [r|e] eqn:E; [discriminate|].
    rewrite (Hf _ _ E). reflexivity.
  - destruct (f v) as [r|e] eqn:E; [apply IH|].
    rewrite (Hf _ _ E). reflexivity.
Qed.

Lemma sequence_with_failing_element_raises (c : pyclass) (elts : list value) :
  Exists (fun v => is_ok (only_builtins v) = false) elts ->
  only_builtins (VList c elts) = Raise TypeError /\
  only_builtins (VTuple c elts) = Raise TypeError /\
  only_builtins (VSet c elts) = Raise TypeError.
Proof.
  intros H.
  pose proof (seq_loop_propagates only_builtins elts [] only_builtins_raises H)
    as Hloop.
  rewrite !only_builtins_unfold. simpl. rewrite Hloop. auto.
Qed.

(** C2 (the code at the failing input): a list, a tuple and a set holding
    one unsupported object between two integers are not sanitized to the
    two integers; the call raises [TypeError].  The dict branch, which
    catches [TypeError], drops the same object. *)
Theorem C2_sequence_with_unsupported_element_raises :
  let one := VPrim Exact (PInt 1) in
  let two := VPrim Exact (PInt 2) in
  let obj := VObject "Plugin" 0 in
  only_builtins obj = Raise TypeError /\
  only_builtins (VList Exact [one; obj; two]) = Raise TypeError /\
  only_builtins (VTuple Exact [one; obj; two]) = Raise TypeError /\
  only_builtins (VSet Exact [one; obj; two]) = Raise TypeError /\
  only_builtins (VDict Exact [(one, one); (VPrim Exact (PStr "k"), obj); (two, two)])
    = Ok (VDict Exact [(one, one); (two, two)]).
Proof. repeat split; reflexivity. Qed.

(** *** Top-level values of an unsupported type *)

(** C3: a value whose type is not a supported type, that is an instance of
    no supported type, and that is no dict, list, tuple or set, makes the
    sanitizer raise [TypeError]; the setter of the synonym raises the same
    exception and leaves the row as it was. *)
Theorem C3_unsupported_top_level_raises
    (name : string) (self : gmap string value) (item : value) :
  type_in_supported item = false ->
  (forall s, In s supported_types -> isinstance item s = false) ->
  isinstance_dict item = false ->
  isinstance_sequence item = false ->
  only_builtins item = Raise TypeError /\
  setter name self item = (Raise TypeError, self).
Proof.
  intros HT HI HD HS.
  assert (H : only_builtins item = Raise TypeError).
  { destruct item as [|c p| | | | |cls i]; try discriminate; try reflexivity.
    exfalso. specialize (HI (prim_type p)).
    assert (Hin : In (prim_type p) supported_types)
      by (destruct p; simpl; tauto).
    specialize (HI Hin). simpl in HI. unfold issubclass in HI.
    destruct p; discriminate. }
  split; [exact H|]. unfold setter. rewrite H. reflexivity.
Qed.

Lemma C3_unsupported_top_level_raises_witness :
  only_builtins (VObject "Plugin" 3) = Raise TypeError /\
  setter "entry" {["entry" := VPrim Exact (PInt 1)]} (VObject "Plugin" 3)
    = (Raise TypeError, {["entry" := VPrim Exact (PInt 1)]}).
Proof.
  apply (C3_unsupported_top_level_raises "entry"
           {["entry" := VPrim Exact (PInt 1)]} (VObject "Plugin" 3)).
  - reflexivity.
  - intros s _. reflexivity.
  - reflexivity.
  - reflexivity.
Defined.

(** *** Mappings: entries with an unsanitizable value are dropped *)

Lemma dict_setitem_fresh (result : list (value * value)) (key v : value) :
  key ∉ result.*1 -> dict_setitem result key v = result ++ [(key, v)].
Proof.
  induction result as [|[k w] rest IH]; simpl; intros H; [reflexivity|].
  apply not_elem_of_cons in H. destruct H as [Hne Hrest].
  rewrite value_eqb_neq by congruence. rewrite IH by assumption. reflexivity.
Qed.

Lemma dict_loop_distinct_keys (items acc : list (value * value)) :
  NoDup (acc.*1 ++ items.*1) ->
  dict_loop only_builtins items acc = Ok (acc ++ omap surviving_entry items).
Proof.
  revert acc. induction items as [|[k v] rest IH]; intros acc HND; simpl.
  - rewrite app_nil_r. reflexivity.
  - simpl in HND. unfold surviving_entry at 1. simpl.
    destruct (only_builtins v) as [r|e] eqn:E.
    + rewrite dict_setitem_fresh.
      * rewrite IH.
        -- rewrite <- app_assoc. reflexivity.
        -- rewrite fmap_app, <- app_assoc. exact HND.
      * apply NoDup_app in HND. destruct HND as (_ & Hdis & _).
        intros Hin. apply (Hdis _ Hin). left.
    + rewrite (only_builtins_raises _ _ E). simpl. apply IH.
      apply NoDup_app in HND. destruct HND as (Hacc & Hdis & Hrest).
      apply NoDup_cons in Hrest. destruct Hrest as [_ Hrest].
      apply NoDup_app. split; [assumption|]. split; [|assumption].
      intros x Hx Hin. apply (Hdis x Hx). right. exact Hin.
Qed.

(** C4: on a mapping (its keys pairwise distinct) the sanitizer succeeds and
    returns a new dict holding, in order, exactly the entries whose value
    can be sanitized, each with its key unchanged and its value sanitized;
    every entry whose value fails is dropped whole. *)
Theorem C4_dict_drops_failing_entries
    (c : pyclass) (items : list (value * value)) :
  NoDup items.*1 ->
  only_builtins (VDict c items) = Ok (VDict Exact (omap surviving_entry items)).
Proof.
  intros HND. rewrite only_builtins_unfold. simpl.
  rewrite (dict_loop_distinct_keys items []); [reflexivity|]. exact HND.
Qed.

Lemma C4_dict_drops_failing_entries_witness :
  let items := [(VPrim Exact (PStr "title"), VPrim (Subclass "Title") (PStr "x"));
                (VPrim Exact (PStr "plugin"), VObject "Plugin" 1);
                (VPrim Exact (PStr "tags"), VList Exact [VObject "Tag" 2]);
                (VPrim Exact (PStr "size"), VPrim Exact (PInt 7))] in
  omap surviving_entry items =
    [(VPrim Exact (PStr "title"), VPrim Exact (PStr "x"));
     (VPrim Exact (PStr "size"), VPrim Exact (PInt 7))] /\
  only_builtins (VDict (Subclass "Entry") items)
    = Ok (VDict Exact (omap surviving_entry items)).
Proof.
  split; [reflexivity|].
  apply (C4_dict_drops_failing_entries (Subclass "Entry")).
  simpl. repeat (apply NoDup_cons_2;
    [rewrite ?not_elem_of_cons, ?elem_of_nil; intuition discriminate|]).
  apply NoDup_nil_2.
Defined.

(** *** Values of a supported type *)

(** C5: a value whose type is one of the supported types themselves is
    returned as it is. *)
Theorem C5_only_builtins_identity (v : value) :
  type_in_supported v = true -> only_builtins v = Ok v.
Proof. intros H. rewrite only_builtins_unfold, H. reflexivity. Qed.

Lemma C5_only_builtins_identity_witness :
  type_in_supported (VPrim Exact (PDatetime (mkdatetime 2020 1 15 0 0 0 0)))
    = true /\
  only_builtins (VPrim Exact (PDatetime (mkdatetime 2020 1 15 0 0 0 0)))
    = Ok (VPrim Exact (PDatetime (mkdatetime 2020 1 15 0 0 0 0))).
Proof.
  split; [reflexivity|].
  apply (C5_only_builtins_identity
           (VPrim Exact (PDatetime (mkdatetime 2020 1 15 0 0 0 0)))).
  reflexivity.
Defined.

End SafePickleProps.

(** ** Text operations *)

Lemma append_nil_l (b : string) : "" +:+ b = b.
Proof. reflexivity. Qed.

Lemma append_cons (c : ascii) (a b : string) :
  String c a +:+ b = String c (a +:+ b).
Proof. reflexivity. Qed.

Ltac simpl_append := rewrite ?append_cons, ?append_nil_l.

Section PyStrProps.
Import PyStr.

Lemma append_nil_r (s : string) : s +:+ "" = s.
Proof.
  induction s as [|c s IH]; simpl_append; [reflexivity | rewrite IH; reflexivity].
Qed.

Lemma append_assoc (a b c : string) : (a +:+ b) +:+ c = a +:+ (b +:+ c).
Proof.
  induction a as [|x a IH]; simpl_append; [reflexivity | rewrite IH; reflexivity].
Qed.

Lemma has_char_single (c sep : ascii) :
  has_char c (String sep "") = Ascii.eqb sep c.
Proof. simpl. apply orb_false_r. Qed.

Lemma has_char_count (sep : ascii) (s : string) :
  has_char sep s = false <-> count_char sep s = O.
Proof.
  induction s as [|c s IH]; simpl; [tauto|].
  destruct (Ascii.eqb c sep); simpl; [split; discriminate | exact IH].
Qed.

Lemma count_char_append (sep : ascii) (a b : string) :
  count_char sep (a +:+ b) = (count_char sep a + count_char sep b)%nat.
Proof.
  induction a as [|c a IH]; simpl_append; simpl; [reflexivity | rewrite IH; lia].
Qed.

(** *** [split] *)

Lemma split_not_nil (sep : ascii) (s : string) : split sep s <> [].
Proof.
  induction s as [|c s IH]; simpl; [discriminate|].
  destruct (Ascii.eqb c sep); [discriminate|].
  destruct (split sep s); [contradiction | discriminate].
Qed.

Lemma split_length (sep : ascii) (s : string) :
  length (split sep s) = S (count_char sep s).
Proof.
  induction s as [|c s IH]; simpl; [reflexivity|].
  destruct (Ascii.eqb c sep); simpl; [rewrite IH; reflexivity|].
  destruct (split sep s) as [|p ps] eqn:E; [discriminate IH | exact IH].
Qed.

Lemma split_no_sep (sep : ascii) (s : string) :
  has_char sep s = false -> split sep s = [s].
Proof.
  induction s as [|c s IH]; simpl; [reflexivity|].
  destruct (Ascii.eqb c sep); simpl; [discriminate|].
  intros H. rewrite (IH H). reflexivity.
Qed.

Lemma split_append_sep (sep : ascii) (x rest : string) :
  has_char sep x = false ->
  split sep (x +:+ String sep rest) = x :: split sep rest.
Proof.
  induction x as [|c x IH]; simpl_append; simpl.
  - intros _. rewrite Ascii.eqb_refl. reflexivity.
  - destruct (Ascii.eqb c sep); simpl; [discriminate|].
    intros H. rewrite (IH H). reflexivity.
Qed.

Lemma join_cons2 (sep x y : string) (rest : list string) :
  join sep (x :: y :: rest) = x +:+ sep +:+ join sep (y :: rest).
Proof. reflexivity. Qed.

Lemma split_join (sep : ascii) (l : list string) :
  l <> [] ->
  Forall (fun s => has_char sep s = false) l ->
  split sep (join (String sep "") l) = l.
Proof.
  intros Hne H. induction H as [|x rest Hx Hrest IH]; [contradiction|].
  destruct rest as [|y rest'].
  - simpl. apply split_no_sep. exact Hx.
  - rewrite join_cons2. simpl_append.
    rewrite split_append_sep by exact Hx. rewrite IH by discriminate.
    reflexivity.
Qed.

Lemma count_char_join (sep : ascii) (l : list string) :
  Forall (fun s => has_char sep s = false) l ->
  count_char sep (join (String sep "") l) = pred (length l).
Proof.
  intros H. induction H as [|x rest Hx Hrest IH]; [reflexivity|].
  destruct rest as [|y rest'].
  - simpl. apply has_char_count. exact Hx.
  - rewrite join_cons2, !count_char_append, IH.
    apply has_char_count in Hx. rewrite Hx. simpl count_char.
    rewrite Ascii.eqb_refl. simpl. reflexivity.
Qed.

(** *** [lstrip], [rstrip] and [strip] with one character to drop *)

Lemma count_char_lstrip (sep : ascii) (s : string) :
  (count_char sep (lstrip (String sep "") s) <= count_char sep s)%nat.
Proof.
  induction s as [|c s IH]; [reflexivity|].
  simpl lstrip. destruct (Ascii.eqb sep c || false); simpl; lia.
Qed.

Lemma count_char_rstrip (sep : ascii) (s : string) :
  (count_char sep (rstrip (String sep "") s) <= count_char sep s)%nat.
Proof.
  induction s as [|c s IH]; [reflexivity|].
  simpl rstrip. destruct (rstrip (String sep "") s) as [|k ks] eqn:E.
  - destruct (Ascii.eqb sep c || false); simpl in *; lia.
  - simpl in *. lia.
Qed.

Lemma rstrip_no_sep (sep : ascii) (s : string) :
  has_char sep s = false -> rstrip (String sep "") s = s.
Proof.
  induction s as [|c s IH]; [reflexivity|]. simpl.
  destruct (Ascii.eqb c sep) eqn:E; simpl; [discriminate|].
  intros H. rewrite (IH H). destruct s; [|reflexivity].
  rewrite Ascii.eqb_sym, E. reflexivity.
Qed.

Lemma rstrip_append (chars a b : string) :
  rstrip chars b <> "" -> rstrip chars (a +:+ b) = a +:+ rstrip chars b.
Proof.
  intros Hb. induction a as [|c a IH]; simpl_append; [reflexivity|].
  simpl. rewrite IH. destruct (a +:+ rstrip chars b) eqn:E; [|reflexivity].
  destruct a; revert E; simpl_append; [contradiction | discriminate].
Qed.

Lemma rstrip_snoc (sep : ascii) (a : string) :
  rstrip (String sep "") (a +:+ String sep "") = rstrip (String sep "") a.
Proof.
  induction a as [|c a IH]; simpl_append; simpl.
  - rewrite Ascii.eqb_refl. reflexivity.
  - rewrite IH. reflexivity.
Qed.

(** Stripping a text that ends with the separator loses a separator. *)
Lemma count_char_strip_snoc (sep : ascii) (a : string) :
  (count_char sep (strip (String sep "") (a +:+ String sep ""))
   < count_char sep (a +:+ String sep ""))%nat.
Proof.
  unfold strip. induction a as [|c a IH]; simpl_append.
  - simpl. rewrite Ascii.eqb_refl. simpl. lia.
  - simpl lstrip. rewrite orb_false_r.
    destruct (Ascii.eqb sep c) eqn:E.
    + simpl count_char. lia.
    + rewrite <- append_cons, rstrip_snoc.
      pose proof (count_char_rstrip sep (String c a)) as Hle.
      rewrite count_char_append. simpl (count_char sep (String sep "")).
      rewrite Ascii.eqb_refl. lia.
Qed.

(** Stripping a text that starts with the separator loses a separator. *)
Lemma count_char_strip_cons (sep : ascii) (rest : string) :
  (count_char sep (strip (String sep "") (String sep rest))
   < count_char sep (String sep rest))%nat.
Proof.
  unfold strip. simpl lstrip. rewrite Ascii.eqb_refl. simpl orb.
  pose proof (count_char_rstrip sep (lstrip (String sep "") rest)).
  pose proof (count_char_lstrip sep rest).
  simpl count_char. rewrite Ascii.eqb_refl. lia.
Qed.

(** *** [join]: its first and last pieces *)

Lemma join_last (sep : string) (l : list string) (z : string) :
  last l = Some z -> exists prefix, join sep l = prefix +:+ z.
Proof.
  induction l as [|x rest IH]; [discriminate|].
  destruct rest as [|y rest'].
  - intros [= ->]. exists "". reflexivity.
  - intros H. destruct (IH H) as [p Hp]. exists (x +:+ sep +:+ p).
    rewrite join_cons2, Hp, !append_assoc. reflexivity.
Qed.

Lemma join_head (sep : string) (c : ascii) (t : string) (rest : list string) :
  exists t', join sep (String c t :: rest) = String c t'.
Proof.
  destruct rest; [simpl; eauto|]. rewrite join_cons2. simpl_append. eauto.
Qed.

End PyStrProps.

(** ** [pipe_list_synonym] *)

Section PipeListProps.
Import PyStr PipeList.

Lemma getter_setter_items (name : string) (self : gmap string (option string))
    (l : list string) :
  getter name (setter name self (Items l)) =
  if nonempty (join "|" l) then Some (split "|" (strip "|" (join "|" l)))
  else None.
Proof. unfold getter, setter. rewrite lookup_total_insert_eq. reflexivity. Qed.

(** C8, as stated, fails: the raw value ["|"] becomes empty once the
    separators are trimmed from its ends, yet the getter returns the
    one-element list holding the empty text, which is neither null nor an
    empty sequence. *)
Lemma C8_separator_only_counterexample :
  strip "|" "|" = "" /\
  getter "genres" {["genres" := Some "|"]} = Some [""] /\
  empty_equivalent (getter "genres" {["genres" := Some "|"]}) = false.
Proof. repeat split; reflexivity. Qed.

(** C8 (amended): the getter returns null exactly when the raw value is null
    or the empty text, and it never returns an empty sequence; for every
    other raw value it returns the parts obtained by splitting, on the
    separator, the value trimmed of separators at its ends. *)
Theorem C8_getter_null_or_split (name : string)
    (self : gmap string (option string)) :
  (empty_equivalent (getter name self) = true <->
     self !!! name = None \/ self !!! name = Some "") /\
  (getter name self = None <->
     self !!! name = None \/ self !!! name = Some "") /\
  (forall attr, self !!! name = Some attr -> attr <> "" ->
     getter name self = Some (split "|" (strip "|" attr))).
Proof.
  unfold getter. destruct (self !!! name) as [[|c attr]|]; simpl.
  - repeat split; try tauto. intros attr [= <-] H. contradiction.
  - repeat split; try (intros [H|H]; discriminate H); try discriminate.
    + destruct (split "|" (strip "|" (String c attr))) eqn:E;
        [|discriminate]. exfalso. eapply split_not_nil. exact E.
    + intros attr' [= <-] _. reflexivity.
  - repeat split; try tauto. intros attr H. discriminate H.
Qed.

Lemma C8_getter_null_or_split_witness :
  ({["genres" := Some "|drama|sci-fi|"]} : gmap string (option string))
    !!! "genres" = Some "|drama|sci-fi|" /\
  getter "genres" {["genres" := Some "|drama|sci-fi|"]}
    = Some ["drama"; "sci-fi"].
Proof.
  split; [reflexivity|].
  apply (proj2 (proj2 (C8_getter_null_or_split "genres"
                         {["genres" := Some "|drama|sci-fi|"]}))
           "|drama|sci-fi|"); [reflexivity | discriminate].
Defined.

(** C9, as stated, fails: the empty list is stored as the empty text and
    read back as null, and an empty first or last element is trimmed away
    with its separator. *)
Lemma C9_round_trip_counterexample :
  getter "genres" (setter "genres" ∅ (Items [])) = None /\
  has_char "|" "a" = false /\ has_char "|" "" = false /\
  getter "genres" (setter "genres" ∅ (Items ["a"; ""])) = Some ["a"] /\
  getter "genres" (setter "genres" ∅ (Items [""; "a"])) = Some ["a"].
Proof. repeat split; reflexivity. Qed.

Lemma strip_join_id (l : list string) (c : ascii) (t z : string) :
  Forall (fun s => has_char "|" s = false) l ->
  head l = Some (String c t) -> last l = Some z -> z <> "" ->
  strip "|" (join "|" l) = join "|" l.
Proof.
  intros Hfree Hhd Hlast Hz. unfold strip.
  destruct l as [|x rest]; [discriminate|]. injection Hhd as ->.
  destruct (join_head "|" c t rest) as [t' Ht']. rewrite Ht'.
  assert (Hc : has_char c "|" = false).
  { inversion Hfree as [|? ? Hx _]; subst. cbn [has_char] in Hx.
    rewrite has_char_single. rewrite Ascii.eqb_sym.
    destruct (Ascii.eqb c "|"); [discriminate | reflexivity]. }
  cbn [lstrip]. rewrite Hc. rewrite <- Ht'.
  destruct (join_last "|" _ _ Hlast) as [p Hp]. rewrite Hp.
  assert (Hzfree : has_char "|" z = false).
  { eapply (proj1 (Forall_forall _ _) Hfree). apply last_Some_elem_of.
    exact Hlast. }
  rewrite rstrip_append; rewrite rstrip_no_sep by exact Hzfree;
    [reflexivity | exact Hz].
Qed.

(** C9 (amended): for a list of texts none of which contains the
    separator, storing the list and reading it back yields the same list
    exactly when the list is not empty and neither its first nor its last
    element is the empty text. *)
Theorem C9_pipe_list_round_trip (name : string)
    (self : gmap string (option string)) (l : list string) :
  Forall (fun s => has_char "|" s = false) l ->
  getter name (setter name self (Items l)) = Some l <->
  l <> [] /\ head l <> Some "" /\ last l <> Some "".
Proof.
  intros Hfree. rewrite getter_setter_items. split.
  - intros H. destruct (nonempty (join "|" l)) eqn:Hne; [|discriminate].
    injection H as H.
    assert (Hlen : S (count_char "|" (strip "|" (join "|" l))) = length l).
    { rewrite <- split_length, H. reflexivity. }
    pose proof (count_char_join "|" l Hfree) as Hcount.
    split; [intros ->; discriminate|]. split.
    + intros Hhd. destruct l as [|x rest]; [discriminate|].
      injection Hhd as ->. destruct rest as [|y rest']; [discriminate|].
      rewrite join_cons2 in Hlen, Hcount. revert Hlen Hcount.
      simpl_append. intros Hlen Hcount.
      pose proof (count_char_strip_cons "|" (join "|" (y :: rest'))).
      simpl length in *. lia.
    + intros Hlast. destruct (join_last "|" l "" Hlast) as [p Hp].
      rewrite append_nil_r in Hp.
      destruct l as [|x rest]; [discriminate|].
      destruct rest as [|y rest'].
      * injection Hlast as ->. discriminate.
      * assert (Hp' : exists q, join "|" (x :: y :: rest') = q +:+ "|").
        { clear - Hlast. revert x y Hlast.
          induction rest' as [|w rest IH]; intros x y Hlast.
          - injection Hlast as ->. exists x. rewrite join_cons2.
            simpl join. rewrite append_nil_r. reflexivity.
          - destruct (IH y w Hlast) as [q Hq]. exists (x +:+ "|" +:+ q).
            rewrite join_cons2, Hq, !append_assoc. reflexivity. }
        destruct Hp' as [q Hq]. rewrite Hq in Hlen, Hcount.
        pose proof (count_char_strip_snoc "|" q).
        simpl length in *. lia.
  - intros (Hne & Hhd & Hlast).
    destruct l as [|x rest] eqn:El; [contradiction|].
    destruct x as [|c t]; [contradiction|].
    destruct (last (String c t :: rest)) as [z|] eqn:Ez.
    + assert (Hz : z <> "") by congruence.
      rewrite (strip_join_id _ c t z Hfree eq_refl Ez Hz).
      destruct (join_head "|" c t rest) as [t' Ht'].
      rewrite Ht'. simpl nonempty. rewrite <- Ht'.
      rewrite split_join; [reflexivity | discriminate | exact Hfree].
    + apply last_None in Ez. discriminate.
Qed.

Lemma C9_pipe_list_round_trip_witness :
  Forall (fun s => has_char "|" s = false) ["drama"; ""; "sci-fi"] /\
  (getter "genres" (setter "genres" ∅ (Items ["drama"; ""; "sci-fi"]))
     = Some ["drama"; ""; "sci-fi"] <->
   ["drama"; ""; "sci-fi"] <> [] /\
   head ["drama"; ""; "sci-fi"] <> Some "" /\
   last ["drama"; ""; "sci-fi"] <> Some "").
Proof.
  assert (H : Forall (fun s => has_char "|" s = false) ["drama"; ""; "sci-fi"])
    by (repeat constructor).
  split; [exact H|].
  exact (C9_pipe_list_round_trip "genres" ∅ ["drama"; ""; "sci-fi"] H).
Defined.

End PipeListProps.

(** ** [text_date_synonym] *)

Section TextDateProps.
Import PyStr TextDate.

Lemma all_ascii_complete (c : ascii) : In c all_ascii.
Proof.
  unfold all_ascii. apply in_map_iff. exists (nat_of_ascii c). split.
  - apply ascii_nat_embedding.
  - apply in_seq. pose proof (nat_ascii_bounded c). lia.
Qed.

(** Every match of the backtracking matcher splits the input into a text of
    the expression's language and the rest. *)
Lemma rmatch_sound (r : regex) (s t rest : string) :
  (t, rest) ∈ rmatch r s -> s = t +:+ rest /\ t ∈ texts r.
Proof.
  revert s t rest. induction r as [c|lo hi|r1 IH1 r2 IH2|r1 IH1 r2 IH2];
    intros s t rest; cbn [rmatch texts].
  - destruct s as [|x s']; [intros H; inversion H|].
    destruct (Ascii.eqb x c) eqn:E; [|intros H; inversion H].
    apply Ascii.eqb_eq in E. subst x.
    intros H. apply list_elem_of_singleton in H. injection H as -> ->.
    split; [reflexivity | apply list_elem_of_singleton; reflexivity].
  - destruct s as [|x s']; [intros H; inversion H|].
    destruct (in_range lo hi x) eqn:E; [|intros H; inversion H].
    intros H. apply list_elem_of_singleton in H. injection H as -> ->.
    split; [reflexivity|]. apply list_elem_of_In, in_map_iff. exists x.
    split; [reflexivity|]. apply filter_In. split; [|exact E].
    apply all_ascii_complete.
  - intros H. apply list_elem_of_bind in H. destruct H as ([t1 s1] & H & H1).
    apply list_elem_of_bind in H. destruct H as ([t2 s2] & H & H2).
    apply list_elem_of_singleton in H. simpl in H, H2. injection H as -> ->.
    apply IH1 in H1. destruct H1 as [-> H1].
    apply IH2 in H2. destruct H2 as [-> H2].
    split; [symmetry; apply append_assoc|].
    apply list_elem_of_bind. exists t1. split; [|exact H1].
    apply list_elem_of_bind. exists t2. split; [|exact H2].
    apply list_elem_of_singleton. reflexivity.
  - intros H. apply elem_of_app in H. destruct H as [H|H].
    + apply IH1 in H. destruct H as [-> H]. split; [reflexivity|].
      apply elem_of_app. left. exact H.
    + apply IH2 in H. destruct H as [-> H]. split; [reflexivity|].
      apply elem_of_app. right. exact H.
Qed.

Lemma format_match_sound (s gY gm gd rest : string) :
  format_match s = Some (gY, gm, gd, rest) ->
  s = gY +:+ "-" +:+ gm +:+ "-" +:+ gd +:+ rest /\
  gY ∈ texts re_Y /\ gm ∈ texts re_m /\ gd ∈ texts re_d.
Proof.
  unfold format_match. intros H. apply head_Some_elem_of in H.
  apply list_elem_of_bind in H. destruct H as ([y s1] & H & HY).
  apply list_elem_of_bind in H. destruct H as ([d1 s2] & H & HD1).
  apply list_elem_of_bind in H. destruct H as ([m s3] & H & HM).
  apply list_elem_of_bind in H. destruct H as ([d2 s4] & H & HD2).
  apply list_elem_of_bind in H. destruct H as ([d s5] & H & HD).
  apply list_elem_of_singleton in H. cbn [fst snd] in *.
  injection H as -> -> -> ->.
  apply rmatch_sound in HY, HD1, HM, HD2, HD.
  destruct HY as [-> HY], HD1 as [-> HD1], HM as [-> HM],
    HD2 as [-> HD2], HD as [-> HD].
  cbn [texts] in HD1, HD2. apply list_elem_of_singleton in HD1, HD2.
  subst d1 d2.
  repeat split; assumption.
Qed.

Lemma texts_re_Y_shape :
  forallb (fun y => all_digits y && (String.length y =? 4)%nat &&
                    negb (has_char "-" y)) (texts re_Y) = true.
Proof. vm_compute. reflexivity. Qed.

Lemma texts_re_m_shape :
  forallb (fun m => all_digits m &&
                    ((String.length m =? 1)%nat || (String.length m =? 2)%nat) &&
                    negb (has_char "-" m)) (texts re_m) = true.
Proof. vm_compute. reflexivity. Qed.

Lemma texts_re_d_shape :
  forallb (fun d => is_day_part d && negb (has_char "-" d)) (texts re_d) = true.
Proof. vm_compute. reflexivity. Qed.

Lemma forallb_elem_of {A : Type} (f : A -> bool) (l : list A) (x : A) :
  forallb f l = true -> x ∈ l -> f x = true.
Proof.
  intros H Hx. apply (proj1 (forallb_forall f l) H). apply list_elem_of_In.
  exact Hx.
Qed.

(** The parser raises nothing but [ValueError]. *)
Lemma strptime_raises (s : string) (e : exn) :
  strptime_Y_m_d s = Raise e -> e = ValueError.
Proof.
  unfold strptime_Y_m_d, int_of_text.
  destruct (format_match s) as [[[[gY gm] gd] rest]|]; [|congruence].
  destruct (nonempty rest); [congruence|].
  repeat match goal with
         | |- context [match ?x with _ => _ end] => destruct x
         end; congruence.
Qed.

(** A text the parser accepts has the shape year-month-day, with a month of
    one or two digits and a day of one or two digits or a space and a
    digit. *)
Lemma strptime_accepts_shape (s : string) (d : datetime) :
  strptime_Y_m_d s = Ok d -> is_Y_m_d s = true.
Proof.
  unfold strptime_Y_m_d.
  destruct (format_match s) as [[[[gY gm] gd] rest]|] eqn:E; [|discriminate].
  destruct rest as [|c rest]; [|discriminate]. intros _.
  apply format_match_sound in E. destruct E as (-> & HY & HM & HD).
  apply (forallb_elem_of _ _ _ texts_re_Y_shape) in HY.
  apply (forallb_elem_of _ _ _ texts_re_m_shape) in HM.
  apply (forallb_elem_of _ _ _ texts_re_d_shape) in HD.
  apply andb_true_iff in HY. destruct HY as [HY HYd].
  apply andb_true_iff in HM. destruct HM as [HM HMd].
  apply andb_true_iff in HD. destruct HD as [HD HDd].
  apply negb_true_iff in HYd, HMd, HDd.
  unfold is_Y_m_d. rewrite append_nil_r. simpl_append.
  rewrite split_append_sep by exact HYd.
  rewrite split_append_sep by exact HMd.
  rewrite split_no_sep by exact HDd.
  rewrite HD, andb_true_r.
  apply andb_true_iff in HY. destruct HY as [-> ->].
  apply andb_true_iff in HM. destruct HM as [-> ->]. reflexivity.
Qed.

(** C10, as stated, fails: ["2020-1-5"] is not of the form [YYYY-MM-DD],
    yet the parser accepts a month and a day of one digit, and the setter
    stores 5 January 2020. *)
Lemma C10_single_digit_counterexample :
  is_YYYY_MM_DD "2020-1-5" = false /\
  setter "date" ∅ (Text "2020-1-5")
    = (Ok tt, {["date" := Some (mkdatetime 2020 1 5 0 0 0 0)]}).
Proof. split; reflexivity. Qed.

(** C10 (amended): setting a text parses it with the format [%Y-%m-%d]; the
    call raises [ValueError] and leaves the row unchanged for every text
    that is not a year of four digits, a month of one or two digits and a
    day of one or two digits (or a space and a digit) joined by ["-"], in
    particular for ["15-01-2020"]; setting a timestamp stores it unchanged;
    after setting ["2020-01-15"] the getter returns 15 January 2020. *)
Theorem C10_text_date_setter (name : string)
    (self : gmap string (option datetime)) :
  (forall s, is_Y_m_d s = false ->
     setter name self (Text s) = (Raise ValueError, self)) /\
  setter name self (Text "15-01-2020") = (Raise ValueError, self) /\
  (forall v, setter name self (Stamp v) = (Ok tt, <[name := v]> self) /\
             getter name (snd (setter name self (Stamp v))) = v) /\
  fst (setter name self (Text "2020-01-15")) = Ok tt /\
  getter name (snd (setter name self (Text "2020-01-15")))
    = Some (mkdatetime 2020 1 15 0 0 0 0).
Proof.
  split; [|split; [|split; [|split]]].
  - intros s Hs. unfold setter.
    destruct (strptime_Y_m_d s) as [d|e] eqn:E.
    + apply strptime_accepts_shape in E. congruence.
    + rewrite (strptime_raises _ _ E). reflexivity.
  - reflexivity.
  - intros v. split; [reflexivity|]. simpl. unfold getter.
    apply lookup_total_insert_eq.
  - reflexivity.
  - unfold getter, setter. simpl. apply lookup_total_insert_eq.
Qed.

Lemma C10_text_date_setter_witness :
  is_Y_m_d "January 15" = false /\
  setter "date" {["date" := None]} (Text "January 15")
    = (Raise ValueError, {["date" := None]}).
Proof.
  split; [reflexivity|].
  apply (proj1 (C10_text_date_setter "date" {["date" := None]})).
  reflexivity.
Defined.

End TextDateProps.

(** ** [CaseInsensitiveWord] *)

Section CaseInsensitiveProps.
Import PyStr CaseInsensitive.

Lemma lower_char_same_letter (c d : ascii) :
  same_letter c d = true -> lower_char c = lower_char d.
Proof.
  unfold same_letter, lower_char, is_upper.
  rewrite !orb_true_iff, !andb_true_iff, Ascii.eqb_eq, !N.eqb_eq,
    !Z.leb_le.
  intros [[->|[[H1 H2] H]]|[[H1 H2] H]]; [reflexivity| |].
  - assert (Hd : (65 <=? Z.of_N (N_of_ascii d))%Z
                 && (Z.of_N (N_of_ascii d) <=? 90)%Z = false).
    { apply andb_false_iff. right. apply Z.leb_gt. lia. }
    rewrite Hd. replace ((65 <=? Z.of_N (N_of_ascii c))%Z
                 && (Z.of_N (N_of_ascii c) <=? 90)%Z) with true
      by (symmetry; apply andb_true_iff; split; apply Z.leb_le; lia).
    rewrite <- H. apply ascii_N_embedding.
  - assert (Hc : (65 <=? Z.of_N (N_of_ascii c))%Z
                 && (Z.of_N (N_of_ascii c) <=? 90)%Z = false).
    { apply andb_false_iff. right. apply Z.leb_gt. lia. }
    rewrite Hc. replace ((65 <=? Z.of_N (N_of_ascii d))%Z
                 && (Z.of_N (N_of_ascii d) <=? 90)%Z) with true
      by (symmetry; apply andb_true_iff; split; apply Z.leb_le; lia).
    rewrite <- H. symmetry. apply ascii_N_embedding.
Qed.

Lemma lower_same_up_to_case (a b : string) :
  same_up_to_case a b = true -> lower a = lower b.
Proof.
  revert b. induction a as [|c a IH]; intros [|d b]; simpl;
    try discriminate; [reflexivity|].
  rewrite andb_true_iff. intros [Hcd Hab].
  rewrite (lower_char_same_letter _ _ Hcd), (IH _ Hab). reflexivity.
Qed.

Lemma same_letter_table :
  forallb (fun c =>
    forallb (fun d => implb (Ascii.eqb (lower_char c) (lower_char d))
                            (same_letter c d)) TextDate.all_ascii)
    TextDate.all_ascii = true.
Proof. vm_compute. reflexivity. Qed.

Lemma same_letter_lower_char (c d : ascii) :
  lower_char c = lower_char d -> same_letter c d = true.
Proof.
  intros H.
  pose proof (proj1 (forallb_forall _ _) same_letter_table c
                (all_ascii_complete c)) as Hc. cbv beta in Hc.
  pose proof (proj1 (forallb_forall _ _) Hc d (all_ascii_complete d)) as Hd.
  cbv beta in Hd. rewrite H, Ascii.eqb_refl in Hd. exact Hd.
Qed.

Lemma same_up_to_case_lower (a b : string) :
  same_up_to_case a b = String.eqb (lower a) (lower b).
Proof.
  destruct (String.eqb (lower a) (lower b)) eqn:E.
  - apply String.eqb_eq in E. revert b E.
    induction a as [|c a IH]; intros [|d b]; simpl; try discriminate;
      [reflexivity|].
    intros [= Hc Hab]. rewrite (same_letter_lower_char _ _ Hc), (IH _ Hab).
    reflexivity.
  - destruct (same_up_to_case a b) eqn:S; [|reflexivity].
    apply lower_same_up_to_case in S. rewrite S, String.eqb_refl in E.
    discriminate.
Qed.

Lemma lower_char_idempotent (c : ascii) : lower_char (lower_char c) = lower_char c.
Proof. destruct c as [[] [] [] [] [] [] [] []]; reflexivity. Qed.

Lemma lower_idempotent (s : string) : lower (lower s) = lower s.
Proof.
  induction s as [|c s IH]; simpl; [reflexivity|].
  rewrite lower_char_idempotent, IH. reflexivity.
Qed.






End CaseInsensitiveProps.

(** ** [QualityComparator] *)

Section QualityProps.
Import QualityCmp.

Lemma dict_of_pairs_union (pairs : list (string * Z)) (d : gmap string Z) :
  fold_left (fun d p => <[fst p := snd p]> d) pairs d
  = list_to_map (reverse pairs) ∪ d.
Proof.
  revert d. induction pairs as [|[k v] rest IH]; intros d; simpl.
  - rewrite (left_id ∅ (∪)). reflexivity.
  - rewrite IH, reverse_cons, list_to_map_app. simpl.
    rewrite <- (assoc_L (∪)). f_equal.
    rewrite insert_empty, <- insert_union_singleton_l. reflexivity.
Qed.

(** The branches of the ranking expression are the registry itself: every
    registered name goes to its rank. *)
Lemma whens_registry (registry : gmap string Z) :
  dict_of_pairs ((fun q => (name q, value q)) <$> qualities_all registry)
  = registry.
Proof.
  unfold dict_of_pairs, qualities_all. rewrite dict_of_pairs_union.
  rewrite (right_id ∅ (∪)).
  assert (Hpairs : forall l : list (string * Z),
            (fun q => (name q, value q)) <$>
              ((fun p => mkQuality (fst p) (snd p)) <$> l) = l).
  { induction l as [|[k v] l IH]; simpl; [reflexivity|].
    f_equal. exact IH. }
  rewrite Hpairs. symmetry. apply list_to_map_flip.
  symmetry. apply reverse_Permutation.
Qed.

(** C6: an operand that carries a rank is used with that rank; a text is
    looked up in the registry and an unknown name raises [ValueError]; any
    other operand raises [TypeError]; a successful comparison applies the
    operator to the ranking expression, whose branches send every
    registered name to its rank and whose default is 0, and to the resolved
    rank, so that on a row with an unregistered stored name the store
    compares 0 with that rank. *)
Theorem C6_quality_operate (registry : gmap string Z) (column : string)
    (op : operator) :
  (forall q, operate registry column op (OQuality q)
             = Ok (Compare op (Case column registry 0) (value q))) /\
  (forall s rank, registry !! s = Some rank ->
     operate registry column op (OText s)
     = Ok (Compare op (Case column registry 0) rank)) /\
  (forall s, registry !! s = None ->
     operate registry column op (OText s) = Raise ValueError) /\
  operate registry column op OOther = Raise TypeError /\
  (forall other p stored, operate registry column op other = Ok p ->
     exists rank,
       p = Compare op (Case column registry 0) rank /\
       (forall r, registry !! stored = Some r ->
          eval_predicate stored p = apply_int op r rank) /\
       (registry !! stored = None ->
          eval_predicate stored p = apply_int op 0 rank)).
Proof.
  assert (Hq : forall q, operate registry column op (OQuality q)
             = Ok (Compare op (Case column registry 0) (value q))).
  { intros q. unfold operate. rewrite whens_registry. reflexivity. }
  assert (Hs : forall s rank, registry !! s = Some rank ->
     operate registry column op (OText s)
     = Ok (Compare op (Case column registry 0) rank)).
  { intros s rank H. unfold operate, qualities_get. rewrite H. simpl.
    rewrite whens_registry. reflexivity. }
  assert (Hn : forall s, registry !! s = None ->
     operate registry column op (OText s) = Raise ValueError).
  { intros s H. unfold operate, qualities_get. rewrite H. reflexivity. }
  repeat split; try assumption.
  intros other p stored H.
  assert (Hp : exists rank, p = Compare op (Case column registry 0) rank).
  { destruct other as [q|s|].
    - rewrite Hq in H. injection H as <-. eauto.
    - destruct (registry !! s) as [rank|] eqn:E.
      + rewrite (Hs _ _ E) in H. injection H as <-. eauto.
      + rewrite (Hn _ E) in H. discriminate.
    - discriminate. }
  destruct Hp as [rank ->]. exists rank. split; [reflexivity|].
  split.
  - intros r Hr. simpl. rewrite Hr. reflexivity.
  - intros Hr. simpl. rewrite Hr. reflexivity.
Qed.

Lemma C6_quality_operate_witness :
  let registry : gmap string Z := {[ "sd" := 1; "hd" := 2; "1080p" := 3 ]} in
  registry !! "sd" = Some 1 /\ registry !! "xyz" = None /\
  operate registry "quality" op_gt (OText "sd")
    = Ok (Compare op_gt (Case "quality" registry 0) 1) /\
  operate registry "quality" op_gt (OText "xyz") = Raise ValueError /\
  eval_predicate "hd" (Compare op_gt (Case "quality" registry 0) 1) = true /\
  eval_predicate "xyz" (Compare op_gt (Case "quality" registry 0) 1) = false.
Proof.
  intros registry.
  pose proof (C6_quality_operate registry "quality" op_gt) as (_ & Hs & Hn & _).
  split; [reflexivity|]. split; [reflexivity|].
  split; [apply Hs; reflexivity|]. split; [apply Hn; reflexivity|].
  split; reflexivity.
Defined.

End QualityProps.

(** ** Further properties of the sanitizer *)

Section SafePickleMore.
Import SafePickle.

Lemma existsb_value_eqb (x : value) (l : list value) :
  existsb (value_eqb x) l = true <-> x ∈ l.
Proof.
  induction l as [|y r IH]; simpl.
  - split; [discriminate | intros H; inversion H].
  - rewrite orb_true_iff, IH, value_eqb_eq, elem_of_cons. tauto.
Qed.

Lemma distinct_NoDup (l : list value) : distinct l = true <-> NoDup l.
Proof.
  induction l as [|x r IH]; simpl.
  - split; [intros _; constructor | reflexivity].
  - rewrite andb_true_iff, negb_true_iff, IH, NoDup_cons.
    rewrite <- not_true_iff_false, existsb_value_eqb. tauto.
Qed.

(** *** The keys of the dict under construction *)

Lemma dict_setitem_keys (result : list (value * value)) (key v : value) :
  (dict_setitem result key v).*1 =
  if existsb (value_eqb key) result.*1 then result.*1 else result.*1 ++ [key].
Proof.
  induction result as [|[k w] rest IH]; [reflexivity|].
  cbn [dict_setitem]. rewrite fmap_cons. cbn [fst existsb].
  destruct (value_eqb k key) eqn:E.
  - apply value_eqb_eq in E. subst k. rewrite value_eqb_refl, fmap_cons.
    reflexivity.
  - rewrite fmap_cons, IH. cbn [fst].
    assert (E' : value_eqb key k = false).
    { destruct (value_eqb key k) eqn:E'; [|reflexivity].
      apply value_eqb_eq in E'. subst k. rewrite value_eqb_refl in E.
      discriminate. }
    rewrite E'. cbn [orb]. destruct (existsb _ _); reflexivity.
Qed.

Lemma dict_setitem_NoDup (result : list (value * value)) (key v : value) :
  NoDup result.*1 -> NoDup (dict_setitem result key v).*1.
Proof.
  intros H. rewrite dict_setitem_keys.
  destruct (existsb (value_eqb key) result.*1) eqn:E; [exact H|].
  apply NoDup_app. split; [exact H|]. split; [|apply NoDup_singleton].
  intros x Hx Hin. apply list_elem_of_singleton in Hin. subst x.
  apply existsb_value_eqb in Hx. congruence.
Qed.

Lemma dict_loop_NoDup (f : value -> res value)
    (items acc result : list (value * value)) :
  NoDup acc.*1 -> dict_loop f items acc = Ok result -> NoDup result.*1.
Proof.
  revert acc. induction items as [|[k v] rest IH]; intros acc Hacc; simpl.
  - intros [= <-]. exact Hacc.
  - destruct (f v) as [r|e].
    + apply IH. apply dict_setitem_NoDup. exact Hacc.
    + destruct (exn_eqb e TypeError); [apply IH; exact Hacc | discriminate].
Qed.

Lemma dict_loop_keys (f : value -> res value)
    (items acc result : list (value * value)) :
  dict_loop f items acc = Ok result ->
  forall k, k ∈ result.*1 -> k ∈ acc.*1 \/ k ∈ items.*1.
Proof.
  revert acc. induction items as [|[k v] rest IH]; intros acc; simpl.
  - intros [= <-] k' Hk'. left. exact Hk'.
  - destruct (f v) as [r|e].
    + intros H k' Hk'. destruct (IH _ H k' Hk') as [Hin|Hin].
      * rewrite dict_setitem_keys in Hin.
        destruct (existsb _ _); [left; exact Hin|].
        apply elem_of_app in Hin. destruct Hin as [Hin|Hin]; [left; exact Hin|].
        apply list_elem_of_singleton in Hin. subst k'. right. left.
      * right. right. exact Hin.
    + destruct (exn_eqb e TypeError); [|discriminate].
      intros H k' Hk'. destruct (IH _ H k' Hk') as [Hin|Hin];
        [left; exact Hin | right; right; exact Hin].
Qed.

(** *** The set constructor *)

Lemma set_add_NoDup (s : list value) (x : value) :
  NoDup s -> NoDup (set_add s x).
Proof.
  intros H. unfold set_add. destruct (existsb (value_eqb x) s) eqn:E;
    [exact H|].
  apply NoDup_app. split; [exact H|]. split; [|apply NoDup_singleton].
  intros y Hy Hin. apply list_elem_of_singleton in Hin. subst y.
  apply existsb_value_eqb in Hy. congruence.
Qed.

Lemma fold_set_add_NoDup (l acc : list value) :
  NoDup acc -> NoDup (fold_left set_add l acc).
Proof.
  revert acc. induction l as [|x r IH]; intros acc H; simpl; [exact H|].
  apply IH. apply set_add_NoDup. exact H.
Qed.

Lemma fold_set_add_distinct (l acc : list value) :
  NoDup (acc ++ l) -> fold_left set_add l acc = acc ++ l.
Proof.
  revert acc. induction l as [|x r IH]; intros acc H; simpl.
  - rewrite app_nil_r. reflexivity.
  - assert (Hx : existsb (value_eqb x) acc = false).
    { apply not_true_iff_false. rewrite existsb_value_eqb.
      apply NoDup_app in H. destruct H as (_ & Hdis & _).
      intros Hin. apply (Hdis _ Hin). left. }
    unfold set_add at 2. rewrite Hx. rewrite IH.
    + rewrite <- app_assoc. reflexivity.
    + rewrite <- app_assoc. exact H.
Qed.

Lemma set_of_list_distinct (l : list value) :
  NoDup l -> set_of_list l = l.
Proof. intros H. unfold set_of_list. apply (fold_set_add_distinct l []). exact H. Qed.

(** *** Sequences: the elements are sanitized one by one *)

Lemma seq_loop_elementwise (f : value -> res value) (elts acc result : list value) :
  (forall v e, f v = Raise e -> e = TypeError) ->
  seq_loop f elts acc = Ok result ->
  exists l', result = acc ++ l' /\ Forall2 (fun x y => f x = Ok y) elts l'.
Proof.
  intros Hf. revert acc. induction elts as [|v rest IH]; intros acc; simpl.
  - intros [= <-]. exists []. rewrite app_nil_r. split; constructor.
  - destruct (f v) as [r|e] eqn:E.
    + intros H. destruct (IH _ H) as (l' & -> & HF). exists (r :: l').
      rewrite <- app_assoc. split; [reflexivity|]. constructor; assumption.
    + rewrite (Hf _ _ E). simpl. discriminate.
Qed.

Lemma seq_loop_fixed (elts acc : list value) :
  Forall (fun v => only_builtins v = Ok v) elts ->
  seq_loop only_builtins elts acc = Ok (acc ++ elts).
Proof.
  intros H. revert acc. induction H as [|v rest Hv _ IH]; intros acc; simpl.
  - rewrite app_nil_r. reflexivity.
  - rewrite Hv, IH, <- app_assoc. reflexivity.
Qed.

Lemma dict_loop_fixed (items acc : list (value * value)) :
  NoDup (acc.*1 ++ items.*1) ->
  Forall (fun kv => only_builtins (snd kv) = Ok (snd kv)) items ->
  dict_loop only_builtins items acc = Ok (acc ++ items).
Proof.
  intros HND H. rewrite dict_loop_distinct_keys by exact HND. do 2 f_equal.
  clear HND. induction H as [|[k v] rest Hv _ IH]; [reflexivity|].
  simpl in Hv. cbn [omap list_omap]. unfold surviving_entry at 1.
  cbn [fst snd]. rewrite Hv. f_equal. exact IH.
Qed.

Lemma map_fst_fmap (items : list (value * value)) :
  List.map fst items = items.*1.
Proof. induction items as [|kv r IH]; simpl; [reflexivity | f_equal; exact IH]. Qed.

(** *** Normal forms *)

(** Whatever the sanitizer returns is in normal form. *)
Lemma only_builtins_normal (item r : value) :
  only_builtins item = Ok r -> normal r = true.
Proof.
  revert r. induction item as [|c p|c items IH|c l IH|c l IH|c l IH|cls i]
    using value_nested_ind; intros r; rewrite only_builtins_unfold;
    destruct (type_in_supported _) eqn:T; try (simpl in T; discriminate T).
  - simpl. discriminate.
  - intros [= <-]. destruct c; [reflexivity | discriminate].
  - destruct (coerce_loop _ _) as [r'|] eqn:E; [|discriminate].
    intros ->. apply coerce_loop_exact in E. destruct E as [q ->]. reflexivity.
  - intros H. apply res_map_ok in H. destruct H as (d & Hd & ->).
    cbn [normal]. apply andb_true_iff. split.
    + rewrite map_fst_fmap. apply distinct_NoDup.
      eapply dict_loop_NoDup; [|exact Hd]. constructor.
    + apply forallb_Forall_true.
      eapply (dict_loop_Forall _ (fun _ => True) (fun w => normal w = true))
        in Hd.
      * eapply Forall_impl; [exact Hd|]. intros [k w] [_ H]. exact H.
      * eapply Forall_impl; [exact IH|]. intros [k w] [_ H]. simpl in *. auto.
      * constructor.
  - intros H. apply res_map_ok in H. destruct H as (d & Hd & ->). cbn [normal].
    apply forallb_Forall_true.
    eapply seq_loop_Forall; [exact IH | constructor | exact Hd].
  - intros H. apply res_map_ok in H. destruct H as (d & Hd & ->). cbn [normal].
    apply forallb_Forall_true.
    eapply seq_loop_Forall; [exact IH | constructor | exact Hd].
  - intros H. apply res_map_ok in H. destruct H as (d & Hd & ->). cbn [normal].
    apply andb_true_iff. split.
    + apply distinct_NoDup. apply fold_set_add_NoDup. constructor.
    + apply forallb_Forall_true. apply set_of_list_Forall.
      eapply seq_loop_Forall; [exact IH | constructor | exact Hd].
  - simpl. discriminate.
Qed.

(** The sanitizer returns a value in normal form as it is. *)
Lemma normal_fixed (r : value) : normal r = true -> only_builtins r = Ok r.
Proof.
  induction r as [|c p|c items IH|c l IH|c l IH|c l IH|cls i]
    using value_nested_ind; intros H; try discriminate H.
  - destruct c; [|discriminate H]. destruct p; reflexivity.
  - destruct c; [|discriminate H]. cbn [normal] in H.
    apply andb_true_iff in H. destruct H as [HD HV].
    rewrite map_fst_fmap in HD. apply distinct_NoDup in HD.
    apply forallb_Forall_true in HV.
    rewrite only_builtins_unfold. cbn [type_in_supported].
    rewrite (dict_loop_fixed items []); [reflexivity | exact HD |].
    apply Forall_forall. intros [k w] Hin.
    pose proof (proj1 (Forall_forall _ _) IH _ Hin) as [_ IHw].
    pose proof (proj1 (Forall_forall _ _) HV _ Hin) as Hw.
    simpl in *. auto.
  - destruct c; [|discriminate H]. cbn [normal] in H.
    apply forallb_Forall_true in H.
    rewrite only_builtins_unfold. cbn [type_in_supported].
    rewrite (seq_loop_fixed l []); [reflexivity|].
    apply Forall_forall. intros v Hin.
    apply (proj1 (Forall_forall _ _) IH _ Hin).
    apply (proj1 (Forall_forall _ _) H _ Hin).
  - destruct c; [|discriminate H]. cbn [normal] in H.
    apply forallb_Forall_true in H.
    rewrite only_builtins_unfold. cbn [type_in_supported].
    rewrite (seq_loop_fixed l []); [reflexivity|].
    apply Forall_forall. intros v Hin.
    apply (proj1 (Forall_forall _ _) IH _ Hin).
    apply (proj1 (Forall_forall _ _) H _ Hin).
  - destruct c; [|discriminate H]. cbn [normal] in H.
    apply andb_true_iff in H. destruct H as [HD H].
    apply distinct_NoDup in HD. apply forallb_Forall_true in H.
    rewrite only_builtins_unfold. cbn [type_in_supported].
    rewrite (seq_loop_fixed l []).
    + cbn [res_map app]. rewrite set_of_list_distinct by exact HD. reflexivity.
    + apply Forall_forall. intros v Hin.
      apply (proj1 (Forall_forall _ _) IH _ Hin).
      apply (proj1 (Forall_forall _ _) H _ Hin).
Qed.

(** X1: the sanitizer is idempotent: a value it returns is in normal form
    (exact builtin instances, dicts with pairwise different keys, sets with
    pairwise different elements), and sanitizing it again returns it
    unchanged. *)
Theorem only_builtins_idempotent (item r : value) :
  only_builtins item = Ok r -> normal r = true /\ only_builtins r = Ok r.
Proof.
  intros H. apply only_builtins_normal in H. split; [exact H|].
  apply normal_fixed. exact H.
Qed.

Lemma only_builtins_idempotent_witness :
  let item := VDict (Subclass "Entry")
                [(VPrim Exact (PStr "title"), VPrim (Subclass "Title") (PStr "x"));
                 (VPrim Exact (PStr "seen"),
                  VSet (Subclass "Seen") [VPrim (Subclass "Id") (PInt 4);
                                          VPrim Exact (PInt 4)]);
                 (VPrim Exact (PStr "plugin"), VObject "Plugin" 1)] in
  let r := VDict Exact
             [(VPrim Exact (PStr "title"), VPrim Exact (PStr "x"));
              (VPrim Exact (PStr "seen"), VSet Exact [VPrim Exact (PInt 4)])] in
  only_builtins item = Ok r /\ normal r = true /\ only_builtins r = Ok r.
Proof.
  split; [reflexivity|].
  apply (only_builtins_idempotent
           (VDict (Subclass "Entry")
                [(VPrim Exact (PStr "title"), VPrim (Subclass "Title") (PStr "x"));
                 (VPrim Exact (PStr "seen"),
                  VSet (Subclass "Seen") [VPrim (Subclass "Id") (PInt 4);
                                          VPrim Exact (PInt 4)]);
                 (VPrim Exact (PStr "plugin"), VObject "Plugin" 1)])).
  reflexivity.
Defined.

(** X2: sanitizing a mapping never fails, whatever the mapping holds: the
    result is an exact dict whose keys are pairwise different keys of the
    input and whose values are all in normal form. *)
Theorem only_builtins_dict_returns (c : pyclass) (items : list (value * value)) :
  exists d,
    only_builtins (VDict c items) = Ok (VDict Exact d) /\
    NoDup d.*1 /\
    (forall k, k ∈ d.*1 -> k ∈ items.*1) /\
    Forall (fun kv => normal (snd kv) = true) d.
Proof.
  destruct (dict_loop_returns only_builtins items []) as [d Hd].
  { apply Forall_forall. intros kv _ e. apply only_builtins_raises. }
  exists d. split; [|split; [|split]].
  - rewrite only_builtins_unfold. cbn [type_in_supported]. rewrite Hd.
    reflexivity.
  - eapply dict_loop_NoDup; [|exact Hd]. constructor.
  - intros k Hk. destruct (dict_loop_keys _ _ _ _ Hd k Hk) as [Hin|Hin];
      [inversion Hin | exact Hin].
  - eapply (dict_loop_Forall _ (fun _ => True) (fun w => normal w = true))
      in Hd.
    + eapply Forall_impl; [exact Hd|]. intros kv [_ H]. exact H.
    + apply Forall_forall. intros kv _. split; [exact I|].
      intros r. apply only_builtins_normal.
    + constructor.
Qed.

(** X3: when a list, a tuple or a set is sanitized, no element is left
    out: the result holds the sanitized elements one for one and in order (a
    set is rebuilt from them), so every element was itself sanitizable. *)
Theorem only_builtins_sequence_elementwise (c : pyclass) (elts : list value)
    (r : value) :
  only_builtins (VList c elts) = Ok r \/
  only_builtins (VTuple c elts) = Ok r \/
  only_builtins (VSet c elts) = Ok r ->
  exists l',
    Forall2 (fun x y => only_builtins x = Ok y) elts l' /\
    length l' = length elts /\
    (only_builtins (VList c elts) = Ok r -> r = VList Exact l') /\
    (only_builtins (VTuple c elts) = Ok r -> r = VTuple Exact l') /\
    (only_builtins (VSet c elts) = Ok r -> r = VSet Exact (set_of_list l')).
Proof.
  intros H.
  assert (Hloop : exists l', seq_loop only_builtins elts [] = Ok l').
  { destruct H as [H|[H|H]]; rewrite only_builtins_unfold in H;
      cbn [type_in_supported] in H; apply res_map_ok in H;
      destruct H as (l' & Hl & _); eauto. }
  destruct Hloop as [l' Hl'].
  destruct (seq_loop_elementwise _ _ _ _ only_builtins_raises Hl')
    as (l'' & Heq & HF). simpl in Heq. subst l''.
  exists l'. split; [exact HF|]. split; [symmetry; eapply Forall2_length; exact HF|].
  rewrite !only_builtins_unfold. cbn [type_in_supported]. rewrite Hl'.
  cbn [res_map]. repeat split; congruence.
Qed.

Lemma only_builtins_sequence_elementwise_witness :
  let elts := [VPrim (Subclass "Title") (PStr "x"); VPrim Exact (PInt 2)] in
  only_builtins (VTuple Exact elts)
    = Ok (VTuple Exact [VPrim Exact (PStr "x"); VPrim Exact (PInt 2)]) /\
  exists l',
    Forall2 (fun x y => only_builtins x = Ok y) elts l' /\
    length l' = length elts.
Proof.
  split; [reflexivity|].
  destruct (only_builtins_sequence_elementwise Exact
              [VPrim (Subclass "Title") (PStr "x"); VPrim Exact (PInt 2)]
              (VTuple Exact [VPrim Exact (PStr "x"); VPrim Exact (PInt 2)])
              (or_intror (or_introl eq_refl))) as (l' & HF & Hlen & _).
  exists l'. split; assumption.
Defined.

(** X4: an instance of a class deriving from [str], [unicode], [int] or
    [float] is cast to an exact instance with the same payload, while an
    instance of a class deriving from [datetime] makes the sanitizer raise
    [TypeError], because the cast calls the [datetime] constructor on it. *)
Theorem only_builtins_subclass_instance (cls : string) (p : prim) :
  (In (prim_type p) [Tstr; Tunicode; Tint; Tfloat] ->
   only_builtins (VPrim (Subclass cls) p) = Ok (VPrim Exact p)) /\
  (prim_type p = Tdatetime ->
   only_builtins (VPrim (Subclass cls) p) = Raise TypeError).
Proof.
  split.
  - destruct p; simpl; intros H; try reflexivity;
      repeat (destruct H as [H|H]; try discriminate H); contradiction.
  - destruct p; simpl; intros H; try discriminate H. reflexivity.
Qed.

Lemma only_builtins_subclass_instance_witness :
  only_builtins (VPrim (Subclass "Count") (PInt 3)) = Ok (VPrim Exact (PInt 3)) /\
  only_builtins (VPrim (Subclass "Stamp")
                   (PDatetime (mkdatetime 2020 1 15 0 0 0 0)))
    = Raise TypeError.
Proof.
  split.
  - apply (proj1 (only_builtins_subclass_instance "Count" (PInt 3))).
    simpl. tauto.
  - apply (proj2 (only_builtins_subclass_instance "Stamp"
                    (PDatetime (mkdatetime 2020 1 15 0 0 0 0)))).
    reflexivity.
Defined.

(** X5: after a successful assignment to the pickle synonym the getter
    returns the sanitized value, every other attribute of the row is as
    before, and assigning what the getter returns leaves the row as it
    is. *)
Theorem safe_pickle_setter_getter (name : string)
    (self self' : gmap string value) (entry : value) :
  setter name self entry = (Ok tt, self') ->
  only_builtins entry = Ok (getter name self') /\
  normal (getter name self') = true /\
  (forall other, other <> name -> self' !!! other = self !!! other) /\
  setter name self' (getter name self') = (Ok tt, self').
Proof.
  unfold setter, getter. destruct (only_builtins entry) as [r|e] eqn:E;
    [|discriminate]. intros [= <-].
  rewrite lookup_total_insert_eq.
  destruct (only_builtins_idempotent _ _ E) as [HN HI].
  split; [reflexivity|]. split; [exact HN|]. split.
  - intros other Hne. apply lookup_total_insert_ne. congruence.
  - rewrite HI. rewrite insert_insert_eq. reflexivity.
Qed.

Lemma safe_pickle_setter_getter_witness :
  let self : gmap string value := {["id" := VPrim Exact (PInt 9)]} in
  let self' : gmap string value :=
    <["entry" := VList Exact [VPrim Exact (PStr "x")]]> self in
  setter "entry" self (VList (Subclass "Titles") [VPrim (Subclass "Title") (PStr "x")])
    = (Ok tt, self') /\
  getter "entry" self' = VList Exact [VPrim Exact (PStr "x")] /\
  self' !!! "id" = VPrim Exact (PInt 9) /\
  setter "entry" self' (getter "entry" self') = (Ok tt, self').
Proof.
  intros self self'.
  assert (H : setter "entry" self
                (VList (Subclass "Titles") [VPrim (Subclass "Title") (PStr "x")])
              = (Ok tt, self')) by reflexivity.
  destruct (safe_pickle_setter_getter "entry" self self' _ H)
    as (_ & _ & _ & Hset).
  split; [exact H|]. split; [reflexivity|]. split; [reflexivity | exact Hset].
Defined.

End SafePickleMore.

(** ** Further properties of the text operations and of [pipe_list_synonym] *)

Section PipeListMore.
Import PyStr PipeList.

Lemma split_sep_free (sep : ascii) (s : string) :
  Forall (fun p => has_char sep p = false) (split sep s).
Proof.
  induction s as [|c s IH]; cbn [split].
  - repeat constructor.
  - destruct (Ascii.eqb c sep) eqn:E.
    + constructor; [reflexivity | exact IH].
    + destruct (split sep s) as [|p ps]; [repeat constructor; simpl; rewrite E; reflexivity|].
      inversion IH; subst. constructor; [|assumption].
      simpl. rewrite E. assumption.
Qed.

Lemma join_cons_char (sep : string) (c : ascii) (p : string) (ps : list string) :
  join sep (String c p :: ps) = String c (join sep (p :: ps)).
Proof. destruct ps; [reflexivity|]. rewrite !join_cons2. reflexivity. Qed.

(** Joining the pieces of a text with the separator gives the text back. *)
Lemma join_split (sep : ascii) (s : string) :
  join (String sep "") (split sep s) = s.
Proof.
  induction s as [|c s IH]; cbn [split]; [reflexivity|].
  destruct (Ascii.eqb c sep) eqn:E.
  - apply Ascii.eqb_eq in E. subst c.
    destruct (split sep s) as [|p ps] eqn:Es;
      [exfalso; eapply split_not_nil; exact Es|].
    rewrite join_cons2, IH. reflexivity.
  - destruct (split sep s) as [|p ps] eqn:Es;
      [exfalso; eapply split_not_nil; exact Es|].
    rewrite join_cons_char, IH. reflexivity.
Qed.

Lemma lstrip_head (sep : ascii) (s : string) :
  lstrip (String sep "") s = "" \/
  exists c t, lstrip (String sep "") s = String c t /\ Ascii.eqb sep c = false.
Proof.
  induction s as [|c s IH]; cbn [lstrip]; [left; reflexivity|].
  rewrite has_char_single. destruct (Ascii.eqb sep c) eqn:E; [exact IH|].
  right. eauto.
Qed.

Lemma rstrip_keeps_head (sep c : ascii) (t : string) :
  Ascii.eqb sep c = false ->
  exists t', rstrip (String sep "") (String c t) = String c t'.
Proof.
  intros E. cbn [rstrip]. rewrite has_char_single, E.
  destruct (rstrip (String sep "") t); eauto.
Qed.

Lemma rstrip_idempotent (chars s : string) :
  rstrip chars (rstrip chars s) = rstrip chars s.
Proof.
  induction s as [|c s IH]; [reflexivity|]. cbn [rstrip].
  destruct (rstrip chars s) as [|k ks] eqn:E.
  - destruct (has_char c chars) eqn:Ec; [reflexivity|].
    cbn [rstrip]. rewrite Ec. reflexivity.
  - cbn [rstrip]. cbn [rstrip] in IH. rewrite IH. reflexivity.
Qed.

Lemma strip_idempotent (sep : ascii) (s : string) :
  strip (String sep "") (strip (String sep "") s) = strip (String sep "") s.
Proof.
  unfold strip. destruct (lstrip_head sep s) as [H|(c & t & H & Hc)];
    rewrite H.
  - reflexivity.
  - destruct (rstrip_keeps_head sep c t Hc) as [t' Ht'].
    assert (Hl : lstrip (String sep "") (String c t') = String c t').
    { cbn [lstrip]. rewrite has_char_single, Hc. reflexivity. }
    rewrite Ht', Hl, <- Ht'. apply rstrip_idempotent.
Qed.

(** A stripped text is empty or starts and ends with a character other
    than the one stripped. *)
Lemma rstrip_last (sep : ascii) (s : string) :
  rstrip (String sep "") s = "" \/
  exists a c, rstrip (String sep "") s = a +:+ String c "" /\
              Ascii.eqb c sep = false.
Proof.
  induction s as [|x s IH]; [left; reflexivity|]. cbn [rstrip].
  destruct IH as [H|(a & c & H & Hc)]; rewrite H.
  - rewrite has_char_single. destruct (Ascii.eqb sep x) eqn:E;
      [left; reflexivity|].
    right. exists "", x. split; [reflexivity|]. rewrite Ascii.eqb_sym. exact E.
  - right. exists (String x a), c. split; [|exact Hc].
    destruct a; reflexivity.
Qed.

Lemma split_head_nonempty (sep c : ascii) (t : string) :
  Ascii.eqb c sep = false -> head (split sep (String c t)) <> Some "".
Proof.
  intros E. cbn [split]. rewrite E.
  destruct (split sep t); simpl; discriminate.
Qed.

Lemma split_last_nonempty (sep c : ascii) (a : string) :
  Ascii.eqb c sep = false ->
  last (split sep (a +:+ String c "")) <> Some "".
Proof.
  intros E. induction a as [|x a IH]; simpl_append; cbn [split].
  - rewrite E. simpl. discriminate.
  - destruct (split sep (a +:+ String c "")) as [|p ps] eqn:Es;
      [exfalso; eapply split_not_nil; exact Es|].
    destruct (Ascii.eqb x sep).
    + rewrite last_cons. destruct (last (p :: ps)) eqn:El;
        [exact IH | apply last_None in El; discriminate].
    + destruct ps as [|q qs]; [simpl; discriminate|].
      rewrite last_cons. change (last (q :: qs)) with (last (p :: q :: qs)) at 1.
      destruct (last (p :: q :: qs)) eqn:El;
        [exact IH | apply last_None in El; discriminate].
Qed.

(** X6: whenever the getter returns a list, the list is not empty, no part
    contains the separator, and either it is the single empty text (the raw
    value held nothing but separators) or its first and last parts are not
    empty. *)
Theorem pipe_list_getter_parts (name : string)
    (self : gmap string (option string)) (l : list string) :
  getter name self = Some l ->
  l <> [] /\
  Forall (fun part => has_char "|" part = false) l /\
  (l = [""] \/ head l <> Some "" /\ last l <> Some "").
Proof.
  unfold getter. destruct (self !!! name) as [raw|]; [|discriminate].
  destruct (nonempty raw); [|discriminate]. intros [= <-].
  split; [apply split_not_nil|]. split; [apply split_sep_free|].
  unfold strip. destruct (lstrip_head "|" raw) as [H|(c & t & H & Hc)];
    rewrite H.
  - left. reflexivity.
  - right. destruct (rstrip_keeps_head "|" c t Hc) as [t' Ht']. split.
    + rewrite Ht'. apply split_head_nonempty. rewrite Ascii.eqb_sym. exact Hc.
    + destruct (rstrip_last "|" (String c t)) as [Hr|(a & z & Hr & Hz)].
      * rewrite Ht' in Hr. discriminate.
      * rewrite Hr. apply split_last_nonempty. exact Hz.
Qed.

Lemma pipe_list_getter_parts_witness :
  let self : gmap string (option string) := {["genres" := Some "||drama||sci-fi|"]} in
  getter "genres" self = Some ["drama"; ""; "sci-fi"] /\
  Forall (fun part => has_char "|" part = false) ["drama"; ""; "sci-fi"].
Proof.
  intros self.
  assert (H : getter "genres" self = Some ["drama"; ""; "sci-fi"]) by reflexivity.
  split; [exact H|].
  exact (proj1 (proj2 (pipe_list_getter_parts "genres" self _ H))).
Defined.

(** X7: writing back the list that was read stores the raw value trimmed of
    the separators at its ends, and the list reads again as the same list,
    provided the raw value holds a character other than the separator. *)
Theorem pipe_list_write_back (name : string)
    (self : gmap string (option string)) (raw : string) (l : list string) :
  self !!! name = Some raw ->
  strip "|" raw <> "" ->
  getter name self = Some l ->
  setter name self (Items l) !!! name = Some (strip "|" raw) /\
  getter name (setter name self (Items l)) = Some l.
Proof.
  intros Hraw Hne Hget.
  assert (Hl : l = split "|" (strip "|" raw)).
  { unfold getter in Hget. rewrite Hraw in Hget.
    destruct (nonempty raw); [|discriminate]. congruence. }
  assert (Hjoin : join "|" l = strip "|" raw) by (subst l; apply join_split).
  split.
  - unfold setter. rewrite lookup_total_insert_eq, Hjoin. reflexivity.
  - rewrite getter_setter_items, Hjoin, strip_idempotent, <- Hl.
    destruct (strip "|" raw); [contradiction | reflexivity].
Qed.

Lemma pipe_list_write_back_witness :
  let self : gmap string (option string) := {["genres" := Some "|drama|sci-fi|"]} in
  getter "genres" self = Some ["drama"; "sci-fi"] /\
  setter "genres" self (Items ["drama"; "sci-fi"]) !!! "genres"
    = Some "drama|sci-fi" /\
  getter "genres" (setter "genres" self (Items ["drama"; "sci-fi"]))
    = Some ["drama"; "sci-fi"].
Proof.
  intros self. split; [reflexivity|].
  apply (pipe_list_write_back "genres" self "|drama|sci-fi|" ["drama"; "sci-fi"]).
  - reflexivity.
  - discriminate.
  - reflexivity.
Defined.

End PipeListMore.

(** ** Further properties of [text_date_synonym], and [year_property] *)

Section TextDateMore.
Import PyStr TextDate DateText.

Lemma below_complete (n z : Z) :
  (0 <= z < n)%Z -> In z (below n).
Proof.
  intros H. unfold below. apply in_map_iff. exists (Z.to_nat z).
  split; [lia|]. apply in_seq. lia.
Qed.

Lemma pad4_values :
  forallb (fun n => all_digits (pad4 n) &&
                    match int_of_text (pad4 n) with
                    | Ok k => (k =? n)%Z
                    | Raise _ => false
                    end) (below 10000) = true.
Proof. vm_compute. reflexivity. Qed.

Lemma pad2_values :
  forallb (fun n => all_digits (pad2 n) &&
                    match int_of_text (pad2 n) with
                    | Ok k => (k =? n)%Z
                    | Raise _ => false
                    end) (below 100) = true.
Proof. vm_compute. reflexivity. Qed.

Lemma int_of_text_pad4 (y : Z) :
  (0 <= y < 10000)%Z -> all_digits (pad4 y) = true /\ int_of_text (pad4 y) = Ok y.
Proof.
  intros H. pose proof (proj1 (forallb_forall _ _) pad4_values y
                          (below_complete 10000 y H)) as Hy.
  cbv beta in Hy. apply andb_true_iff in Hy. destruct Hy as [Hd Hi].
  split; [exact Hd|]. destruct (int_of_text (pad4 y)) as [k|e]; [|discriminate].
  apply Z.eqb_eq in Hi. congruence.
Qed.

Lemma int_of_text_pad2 (n : Z) :
  (0 <= n < 100)%Z -> int_of_text (pad2 n) = Ok n.
Proof.
  intros H. pose proof (proj1 (forallb_forall _ _) pad2_values n
                          (below_complete 100 n H)) as Hn.
  cbv beta in Hn. apply andb_true_iff in Hn. destruct Hn as [_ Hi].
  destruct (int_of_text (pad2 n)) as [k|e]; [|discriminate].
  apply Z.eqb_eq in Hi. congruence.
Qed.

Lemma rmatch_digit (c : ascii) (rest : string) :
  is_digit c = true -> rmatch digit (String c rest) = [(String c "", rest)].
Proof. intros H. unfold digit. cbn [rmatch]. unfold is_digit in H. rewrite H. reflexivity. Qed.

Lemma rmatch_seq_single (r1 r2 : regex) (s t1 s1 t2 s2 : string) :
  rmatch r1 s = [(t1, s1)] -> rmatch r2 s1 = [(t2, s2)] ->
  rmatch (Seq r1 r2) s = [(t1 +:+ t2, s2)].
Proof. intros H1 H2. cbn [rmatch]. rewrite H1. simpl. rewrite H2. reflexivity. Qed.

Lemma rmatch_re_Y (c1 c2 c3 c4 : ascii) (rest : string) :
  all_digits (String c1 (String c2 (String c3 (String c4 "")))) = true ->
  rmatch re_Y (String c1 (String c2 (String c3 (String c4 rest))))
  = [(String c1 (String c2 (String c3 (String c4 ""))), rest)].
Proof.
  cbn [all_digits]. rewrite !andb_true_iff. intros (H1 & H2 & H3 & H4 & _).
  unfold re_Y.
  apply (rmatch_seq_single _ _ _ (String c1 "") _ (String c2 (String c3 (String c4 ""))) _
           (rmatch_digit _ _ H1)).
  apply (rmatch_seq_single _ _ _ (String c2 "") _ (String c3 (String c4 "")) _
           (rmatch_digit _ _ H2)).
  apply (rmatch_seq_single _ _ _ (String c3 "") _ (String c4 "") _
           (rmatch_digit _ _ H3)).
  apply rmatch_digit. exact H4.
Qed.

Lemma format_match_iso_text (y m d : Z) :
  (0 <= y < 10000)%Z -> (1 <= m <= 12)%Z -> (1 <= d <= 31)%Z ->
  format_match (iso_text y m d) = Some (pad4 y, pad2 m, pad2 d, "").
Proof.
  intros Hy Hm Hd. destruct (int_of_text_pad4 y Hy) as [HY _].
  unfold iso_text. revert HY. unfold pad4.
  generalize (digit_char (y / 1000)) (digit_char (y / 100 mod 10))
    (digit_char (y / 10 mod 10)) (digit_char (y mod 10)).
  intros c1 c2 c3 c4 HY. simpl_append. unfold format_match.
  rewrite (rmatch_re_Y c1 c2 c3 c4 _ HY).
  assert (Hm' : In m [1; 2; 3; 4; 5; 6; 7; 8; 9; 10; 11; 12]%Z)
    by (simpl; lia).
  assert (Hd' : In d [1; 2; 3; 4; 5; 6; 7; 8; 9; 10; 11; 12; 13; 14; 15; 16;
                      17; 18; 19; 20; 21; 22; 23; 24; 25; 26; 27; 28; 29; 30;
                      31]%Z) by (simpl; lia).
  clear Hy Hm Hd HY. simpl in Hm', Hd'.
  repeat (destruct Hm' as [<-|Hm']); try contradiction;
    repeat (destruct Hd' as [<-|Hd']); try contradiction;
    vm_compute; reflexivity.
Qed.

Lemma date_in_range_bounds (y m d : Z) :
  date_in_range y m d = true ->
  (1 <= y <= 9999)%Z /\ (1 <= m <= 12)%Z /\ (1 <= d <= 31)%Z.
Proof.
  unfold date_in_range, days_in_month. rewrite !andb_true_iff, !Z.leb_le.
  intros (((((H1 & H2) & H3) & H4) & H5) & H6).
  repeat split; try assumption.
  destruct (m =? 2)%Z; [destruct (is_leap y); lia|].
  destruct ((m =? 4)%Z || (m =? 6)%Z || (m =? 9)%Z || (m =? 11)%Z); lia.
Qed.

(** Every day of the calendar, written as year, month and day with leading
    zeros, is parsed to that day at midnight. *)
Lemma strptime_iso_text (y m d : Z) :
  date_in_range y m d = true ->
  strptime_Y_m_d (iso_text y m d) = Ok (mkdatetime y m d 0 0 0 0).
Proof.
  intros H. destruct (date_in_range_bounds _ _ _ H) as (Hy & Hm & Hd).
  unfold strptime_Y_m_d.
  rewrite format_match_iso_text by lia. cbn [nonempty].
  destruct (int_of_text_pad4 y ltac:(lia)) as [_ ->].
  rewrite !int_of_text_pad2 by lia. rewrite H. reflexivity.
Qed.

Lemma string_length_append (a b : string) :
  String.length (a +:+ b) = (String.length a + String.length b)%nat.
Proof.
  induction a as [|c a IH]; simpl_append; simpl; [reflexivity | rewrite IH; reflexivity].
Qed.

Lemma texts_re_d_length :
  forallb (fun t => (1 <=? String.length t)%nat && (String.length t <=? 2)%nat)
          (texts re_d) = true.
Proof. vm_compute. reflexivity. Qed.

(** X8: whatever text the setter accepts, what it stores is a day of the
    calendar (year 1 to 9999, month 1 to 12, a day the month has) at
    midnight, and the text is 8 to 10 characters long. *)
Theorem text_date_stores_calendar_day (name : string)
    (self self' : gmap string (option datetime)) (s : string) :
  setter name self (Text s) = (Ok tt, self') ->
  exists dt,
    self' = <[name := Some dt]> self /\
    getter name self' = Some dt /\
    date_in_range (year dt) (month dt) (day dt) = true /\
    (hour dt, minute dt, second dt, microsecond dt) = (0, 0, 0, 0)%Z /\
    (8 <= String.length s <= 10)%nat.
Proof.
  unfold setter. destruct (strptime_Y_m_d s) as [dt|e] eqn:E; [|discriminate].
  intros [= <-]. exists dt. split; [reflexivity|].
  split; [unfold getter; apply lookup_total_insert_eq|].
  unfold strptime_Y_m_d in E.
  destruct (format_match s) as [[[[gY gm] gd] rest]|] eqn:EF; [|discriminate].
  destruct rest as [|c rest]; [|discriminate]. cbn [nonempty] in E.
  destruct (int_of_text gY) as [y|]; [|discriminate].
  destruct (int_of_text gm) as [m|]; [|discriminate].
  destruct (int_of_text gd) as [d|]; [|discriminate].
  destruct (date_in_range y m d) eqn:ER; [|discriminate].
  injection E as <-. cbn [year month day hour minute second microsecond].
  split; [exact ER|]. split; [reflexivity|].
  apply format_match_sound in EF. destruct EF as (-> & HY & HM & HD).
  apply (forallb_elem_of _ _ _ texts_re_Y_shape) in HY.
  apply (forallb_elem_of _ _ _ texts_re_m_shape) in HM.
  apply (forallb_elem_of _ _ _ texts_re_d_length) in HD.
  cbv beta in HY, HM, HD.
  apply andb_true_iff in HY. destruct HY as [HY _].
  apply andb_true_iff in HY. destruct HY as [_ HY].
  apply andb_true_iff in HM. destruct HM as [HM _].
  apply andb_true_iff in HM. destruct HM as [_ HM].
  apply andb_true_iff in HD. destruct HD as [HD1 HD2].
  apply Nat.eqb_eq in HY. apply orb_true_iff in HM.
  apply Nat.leb_le in HD1, HD2.
  rewrite !string_length_append. cbn [String.length].
  destruct HM as [HM|HM]; apply Nat.eqb_eq in HM; lia.
Qed.

Lemma text_date_stores_calendar_day_witness :
  setter "date" ∅ (Text "2020-2-29")
    = (Ok tt, {["date" := Some (mkdatetime 2020 2 29 0 0 0 0)]}) /\
  exists dt,
    getter "date" {["date" := Some (mkdatetime 2020 2 29 0 0 0 0)]} = Some dt /\
    date_in_range (year dt) (month dt) (day dt) = true.
Proof.
  assert (H : setter "date" ∅ (Text "2020-2-29")
              = (Ok tt, {["date" := Some (mkdatetime 2020 2 29 0 0 0 0)]}))
    by reflexivity.
  split; [exact H|].
  destruct (text_date_stores_calendar_day "date" ∅ _ "2020-2-29" H)
    as (dt & _ & Hg & Hr & _).
  exists dt. split; assumption.
Defined.

(** X9: every day of the calendar from year 1 to year 9999, written as
    four, two and two digits joined by ["-"], is accepted by the setter,
    which stores that day at midnight; the getter then returns it. *)
Theorem text_date_accepts_calendar_days (name : string)
    (self : gmap string (option datetime)) (y m d : Z) :
  date_in_range y m d = true ->
  setter name self (Text (iso_text y m d))
    = (Ok tt, <[name := Some (mkdatetime y m d 0 0 0 0)]> self) /\
  getter name (snd (setter name self (Text (iso_text y m d))))
    = Some (mkdatetime y m d 0 0 0 0).
Proof.
  intros H. unfold setter. rewrite (strptime_iso_text _ _ _ H). cbn [snd].
  split; [reflexivity|]. unfold getter. apply lookup_total_insert_eq.
Qed.

Lemma text_date_accepts_calendar_days_witness :
  iso_text 2024 2 29 = "2024-02-29" /\
  setter "date" ∅ (Text "2024-02-29")
    = (Ok tt, {["date" := Some (mkdatetime 2024 2 29 0 0 0 0)]}).
Proof.
  split; [reflexivity|].
  apply (proj1 (text_date_accepts_calendar_days "date" ∅ 2024 2 29 eq_refl)).
Defined.

(** X10: the year attribute of a row reads [None] while the date is [None]
    and the year of the stored date otherwise; after the date was set from
    the text of a calendar day it is the year that was written. *)
Theorem year_property_getter (date_attr : string)
    (self : gmap string (option datetime)) :
  (self !!! date_attr = None -> YearProperty.getter date_attr self = None) /\
  (forall v, YearProperty.getter date_attr
               (snd (setter date_attr self (Stamp v))) = year <$> v) /\
  (forall y m d, date_in_range y m d = true ->
     YearProperty.getter date_attr
       (snd (setter date_attr self (Text (iso_text y m d)))) = Some y) /\
  (forall s e, fst (setter date_attr self (Text s)) = Raise e ->
     YearProperty.getter date_attr (snd (setter date_attr self (Text s)))
     = YearProperty.getter date_attr self).
Proof.
  unfold YearProperty.getter, setter. split; [intros ->; reflexivity|].
  split; [|split].
  - intros v. cbn [snd]. rewrite lookup_total_insert_eq.
    destruct v; reflexivity.
  - intros y m d H. rewrite (strptime_iso_text _ _ _ H). cbn [snd].
    rewrite lookup_total_insert_eq. reflexivity.
  - intros s e. destruct (strptime_Y_m_d s); [discriminate | reflexivity].
Qed.

Lemma year_property_getter_witness :
  YearProperty.getter "date" (snd (setter "date" ∅ (Text "1999-12-31")))
    = Some 1999%Z.
Proof.
  pose proof (year_property_getter "date" ∅) as (_ & _ & H & _).
  exact (H 1999 12 31 eq_refl).
Defined.

End TextDateMore.

(** ** Further properties of [CaseInsensitiveWord] *)

Section CaseInsensitiveMore.
Import PyStr CaseInsensitive.

(** X11: for two texts of ASCII characters, the equality test of a wrapper
    against a text, or against the wrapper of a text, is true exactly when
    the two texts differ at most in the case of their letters, and the
    inequality test is its negation. *)
Theorem case_insensitive_eq_decides (a b : string) :
  is_ascii a = true -> is_ascii b = true ->
  operate (init (OText a)) op_eq (OText b) = Bool (same_up_to_case a b) /\
  operate (init (OText a)) op_eq (OWord (init (OText b)))
    = Bool (same_up_to_case a b) /\
  operate (init (OText a)) op_ne (OText b) = Bool (negb (same_up_to_case a b)).
Proof.
  intros _ _. rewrite same_up_to_case_lower. repeat split; reflexivity.
Qed.

Lemma case_insensitive_eq_decides_witness :
  is_ascii "Movie" = true /\ is_ascii "MOVIES" = true /\
  same_up_to_case "Movie" "MOVIES" = false /\
  operate (init (OText "Movie")) op_eq (OText "MOVIES") = Bool false /\
  operate (init (OText "Movie")) op_ne (OText "MOVIES") = Bool true.
Proof.
  destruct (case_insensitive_eq_decides "Movie" "MOVIES" eq_refl eq_refl)
    as (H1 & _ & H3).
  split; [reflexivity|]. split; [reflexivity|]. split; [reflexivity|].
  split; [exact H1 | exact H3].
Defined.

(** X12: every comparison of a wrapper sees only the lowered texts: with
    any of the six operators the result is the same when either text is
    replaced by one that differs from it only in case, in particular by its
    own lowered form. *)
Theorem case_insensitive_compare_congruent (op : operator) (a a' b b' : string) :
  same_up_to_case a a' = true -> same_up_to_case b b' = true ->
  operate (init (OText a)) op (OText b)
    = operate (init (OText a')) op (OText b') /\
  operate (init (OText a)) op (OText b)
    = operate (init (OText (lower a))) op (OText (lower b)).
Proof.
  intros Ha Hb. apply lower_same_up_to_case in Ha, Hb.
  unfold operate, init. cbn [word apply_op].
  rewrite Ha, Hb, !lower_idempotent. split; reflexivity.
Qed.

Lemma case_insensitive_compare_congruent_witness :
  operate (init (OText "apple")) op_lt (OText "BANANA")
    = operate (init (OText "APPLE")) op_lt (OText "banana") /\
  operate (init (OText "apple")) op_lt (OText "BANANA") = Bool true /\
  apply_text op_lt "apple" "BANANA" = false.
Proof.
  split; [|split; reflexivity].
  apply (proj1 (case_insensitive_compare_congruent op_lt
                  "apple" "APPLE" "BANANA" "banana" eq_refl eq_refl)).
Defined.

End CaseInsensitiveMore.

(** ** [quality_property] *)

Section QualityPropertyProps.
Import QualityCmp QualityProperty.

(** X13: assigning a registered quality, or its name, to the quality
    attribute stores the name, and the getter then returns that quality;
    no other attribute of the row changes. *)
Theorem quality_property_round_trip (registry : gmap string Z)
    (get_unknown : string -> res (option quality))
    (get_none : res (option quality)) (text_attr : string)
    (self : gmap string (option string)) (q : quality) :
  registry !! name q = Some (value q) ->
  setter text_attr self (AQuality q) = setter text_attr self (AText (name q)) /\
  setter text_attr self (AQuality q) !!! text_attr = Some (name q) /\
  getter registry get_unknown get_none text_attr
    (setter text_attr self (AQuality q)) = Ok (Some q) /\
  (forall other, other <> text_attr ->
     setter text_attr self (AQuality q) !!! other = self !!! other).
Proof.
  intros H. unfold getter, setter, qualities_get.
  rewrite lookup_total_insert_eq, H. destruct q as [n v]. simpl.
  repeat split. intros other Hne. apply lookup_total_insert_ne. congruence.
Qed.

Lemma quality_property_round_trip_witness :
  let registry : gmap string Z := {[ "sd" := 1; "hd" := 2; "1080p" := 3 ]} in
  getter registry (fun _ => Ok None) (Raise AttributeError) "quality"
    (setter "quality" ∅ (AQuality (mkQuality "hd" 2)))
  = Ok (Some (mkQuality "hd" 2)).
Proof.
  intros registry.
  apply (quality_property_round_trip registry (fun _ => Ok None)
           (Raise AttributeError) "quality" ∅ (mkQuality "hd" 2)).
  reflexivity.
Defined.

(** X14: a row whose quality attribute was assigned a registered quality
    compares by rank: against another quality, or against the name of a
    registered one, the predicate built by the comparator is true on the
    row exactly when the operator holds between the two ranks. *)
Theorem quality_property_compares_ranks (registry : gmap string Z)
    (text_attr : string) (self : gmap string (option string))
    (op : operator) (q1 q2 : quality) :
  registry !! name q1 = Some (value q1) ->
  setter text_attr self (AQuality q1) !!! text_attr = Some (name q1) /\
  res_map (eval_predicate (name q1))
    (comparator registry text_attr op (OQuality q2))
    = Ok (apply_int op (value q1) (value q2)) /\
  (registry !! name q2 = Some (value q2) ->
   res_map (eval_predicate (name q1))
     (comparator registry text_attr op (OText (name q2)))
     = Ok (apply_int op (value q1) (value q2))).
Proof.
  intros H1. split; [unfold setter; apply lookup_total_insert_eq|].
  unfold comparator, operate, qualities_get. rewrite whens_registry.
  split.
  - simpl. rewrite H1. reflexivity.
  - intros H2. rewrite H2. simpl. rewrite H1. reflexivity.
Qed.

Lemma quality_property_compares_ranks_witness :
  let registry : gmap string Z := {[ "sd" := 1; "hd" := 2; "1080p" := 3 ]} in
  res_map (eval_predicate "1080p")
    (comparator registry "quality" op_gt (OText "hd")) = Ok true /\
  apply_text op_gt "1080p" "hd" = false.
Proof.
  intros registry. split; [|reflexivity].
  apply (proj2 (proj2 (quality_property_compares_ranks registry "quality" ∅
                         op_gt (mkQuality "1080p" 3) (mkQuality "hd" 2)
                         eq_refl))).
  reflexivity.
Defined.

End QualityPropertyProps.

(** ** [with_session] *)

Section WithSessionProps.
Import WithSession.
Context {Args A : Type}.
Variable func : Args -> gmap string kwarg -> res A * list event.
Variable fresh : nat.
Variable commit : session -> list event -> res unit.

(** X15: called without a session (none given, or [None]), the wrapper
    makes a session with autoflush on and expire-on-commit off, hands it to
    the function under the key [session] with the other keyword arguments
    unchanged, and afterwards closes it exactly once and last of all on
    every path; it commits, before closing, exactly when the function
    returned and the commit did not raise; an exception of the function is
    raised on, and so is one of the commit.  Called with a session, the
    wrapper is the function itself: it neither commits nor closes. *)
Theorem with_session_lifecycle (args : Args) (kwargs : gmap string kwarg) :
  let s := new_session fresh in
  let call := func args (<["session" := KSession s]> kwargs) in
  let committed := commit s (Created s :: snd call) in
  (truth (kwargs !! "session") = false ->
   autoflush s = true /\ expire_on_commit s = false /\
   exists own,
     snd (wrapper func fresh commit args kwargs)
       = Created s :: snd call ++ own /\
     (own = [Closed s] \/ own = [Committed s; Closed s]) /\
     (own = [Committed s; Closed s] <->
        is_ok (fst call) = true /\ is_ok committed = true) /\
     fst (wrapper func fresh commit args kwargs)
       = match fst call, committed with
         | Ok result, Ok _ => Ok result
         | Ok _, Raise e => Raise e
         | Raise e, _ => Raise e
         end) /\
  (truth (kwargs !! "session") = true ->
   wrapper func fresh commit args kwargs = func args kwargs).
Proof.
  intros s call committed. unfold wrapper. split; intros H; rewrite H;
    [|reflexivity].
  cbn [negb]. split; [reflexivity|]. split; [reflexivity|].
  fold s. fold call. destruct call as [[result|e] did] eqn:Ecall.
  - cbn [fst snd] in *. fold committed.
    destruct committed as [u|e].
    + exists [Committed s; Closed s]. cbn [fst snd is_ok].
      repeat split; auto.
    + exists [Closed s]. cbn [fst snd is_ok].
      repeat split; auto; try discriminate. intros [_ ?]. discriminate.
  - exists [Closed s]. cbn [fst snd is_ok].
    repeat split; auto; try discriminate. intros [? _]. discriminate.
Qed.

End WithSessionProps.

Lemma with_session_lifecycle_witness :
  let func := fun (args : unit) (kwargs : gmap string WithSession.kwarg) =>
                (@Raise nat ValueError, [WithSession.Did "work"]) in
  let s := WithSession.new_session 7 in
  WithSession.wrapper func 7 (fun _ _ => Ok tt) tt
    {["session" := WithSession.KNone]}
  = (Raise ValueError,
     [WithSession.Created s; WithSession.Did "work"; WithSession.Closed s]) /\
  exists own,
    snd (WithSession.wrapper func 7 (fun _ _ => Ok tt) tt
           {["session" := WithSession.KNone]})
    = WithSession.Created s :: [WithSession.Did "work"] ++ own /\
    (own = [WithSession.Closed s] \/
     own = [WithSession.Committed s; WithSession.Closed s]).
Proof.
  intros func s. split; [reflexivity|].
  assert (H : WithSession.truth
                (({["session" := WithSession.KNone]}
                   : gmap string WithSession.kwarg) !! "session") = false)
    by reflexivity.
  destruct (proj1 (with_session_lifecycle func 7 (fun _ _ => Ok tt) tt
                     {["session" := WithSession.KNone]}) H)
    as (_ & _ & own & Hown & Hshape & _).
  exists own. split; [exact Hown | exact Hshape].
Defined.
